(** * reddit-scraper.py: filter, dedupe and incremental persistence

    A shallow embedding of [src/reddit-scraper.py] and the properties of its
    filter-and-dedupe pipeline.

    Conventions of the embedding
    - A Python [str] is a Rocq [string]; [lower]/[upper] act on the ASCII
      letters, slicing [s[:n]] is [String.substring 0 n s].
    - Python numbers that hold whole values (scores, counts, epoch seconds,
      delays in seconds) are [Z].  PRAW reports [created_utc] as a float
      holding a whole number of seconds; the model keeps that number.
    - A Python [dict] with string keys is an association list in insertion
      order; lookup takes the first binding.
    - Exceptions are values of [exn]; a computation that may raise returns an
      [outcome].  Logging, sleeping, the global [reddit] handle and the files
      on disk are threaded through the state of the monad [M].
    - pandas and PRAW are external: a data frame is a header with rows of
      cells, the CSV text codec is an interface ([PandasCsv]), and the Reddit
      service is an oracle ([Reddit], [Subreddit], [Submission]).

    The file has four parts: the program, the notions used to state its
    properties, sample inputs, and the properties. *)

From Stdlib Require Import ZArith DecimalString Ascii.
From stdpp Require Import base strings list gmap.

Local Open Scope string_scope.
Local Open Scope Z_scope.
Local Open Scope list_scope.

(** * The program *)

(** ** Python values and strings *)

Module Py.

(** The values the scraper stores in its records. *)
Inductive value : Type :=
| VStr (s : string)
| VInt (z : Z).

(** [str(int)] *)
Definition str_of_Z (z : Z) : string := NilZero.string_of_int (Z.to_int z).

(** [str(v)] *)
Definition str (v : value) : string :=
  match v with
  | VStr s => s
  | VInt z => str_of_Z z
  end.

Definition is_upper (c : ascii) : bool :=
  let n := nat_of_ascii c in (65 <=? n)%nat && (n <=? 90)%nat.

Definition is_lower (c : ascii) : bool :=
  let n := nat_of_ascii c in (97 <=? n)%nat && (n <=? 122)%nat.

Definition lower_char (c : ascii) : ascii :=
  if is_upper c then ascii_of_nat (nat_of_ascii c + 32) else c.

Definition upper_char (c : ascii) : ascii :=
  if is_lower c then ascii_of_nat (nat_of_ascii c - 32) else c.

Fixpoint map_chars (f : ascii -> ascii) (s : string) : string :=
  match s with
  | EmptyString => EmptyString
  | String c s' => String (f c) (map_chars f s')
  end.

(** [s.lower()] and [s.upper()] *)
Definition lower : string -> string := map_chars lower_char.
Definition upper : string -> string := map_chars upper_char.

(** [sub in s] on strings: [sub] occurs in [s] as a contiguous run. *)
Fixpoint contains (sub s : string) : bool :=
  String.prefix sub s ||
  match s with
  | EmptyString => false
  | String _ s' => contains sub s'
  end.

(** [s[:n]] *)
Definition slice_to (n : nat) (s : string) : string := String.substring 0 n s.

(** Truthiness of a string: [bool(s)] *)
Definition truthy (s : string) : bool :=
  match s with
  | EmptyString => false
  | String _ _ => true
  end.

(** The double quote character, as a one-character string. *)
Definition dquote : string := String (ascii_of_nat 34) EmptyString.

End Py.

Export Py.

#[global] Instance value_eq_dec : EqDecision value.
Proof. solve_decision. Defined.

#[global] Instance value_countable : Countable value.
Proof.
  refine (inj_countable'
            (fun v => match v with VStr s => inl s | VInt z => inr z end)
            (fun x => match x with inl s => VStr s | inr z => VInt z end) _).
  intros []; reflexivity.
Defined.

(** ** Exceptions, outcomes and the effect monad *)

Inductive exn : Type :=
| RedditAPIException (msg : string)   (* praw.exceptions.RedditAPIException *)
| ClientException (msg : string)      (* praw.exceptions.ClientException *)
| KeyError (key : string)
| TypeError
| OtherException (msg : string).      (* any other subclass of Exception *)

Inductive outcome (A : Type) : Type :=
| Return (a : A)
| Raised (e : exn).
Arguments Return {A} a.
Arguments Raised {A} e.

Inductive level : Type := INFO | WARNING | ERROR.

(** What the program does to the outside besides files: it sleeps and it logs.
    A log event keeps the level of the logger call, not the message text. *)
Inductive event : Type :=
| Sleep (seconds : Z)
| Log (lvl : level).

(** ** Configuration: the module constant [CONFIG] *)

Record Config : Type := {
  subreddits : list string;
  keywords : list string;
  start_date : Z;        (* epoch seconds, UTC *)
  end_date : Z;
  min_upvotes : Z;
  output_file : string;
  request_delay : Z;     (* seconds *)
  max_retries : nat;
  retry_delay : Z        (* seconds *)
}.

(** [datetime(2024, 11, 8, tzinfo=utc).timestamp()] is 1731024000 and
    [datetime(2025, 11, 8, tzinfo=utc).timestamp()] is 1762560000. *)
Definition CONFIG : Config := {|
  subreddits := ["GlobalOffensive"; "csgo"; "CS2"; "gaming"; "Steam"];
  keywords := ["case opening"; "gambling"; "loot box"; "lootbox"; "addiction";
               "skin gambling"; "case unboxing"; "csgo case"; "cs2 case"];
  start_date := 1731024000;
  end_date := 1762560000;
  min_upvotes := 5;
  output_file := "reddit_cs_gambling_data.csv";
  request_delay := 1;
  max_retries := 3;
  retry_delay := 5
|}.

(** ** The Reddit service, as PRAW shows it to the program *)

(** A reply of a submission.  [com_body = None] stands for an object without
    a [body]; [com_author = None] for a deleted account. *)
Record Comment : Type := {
  com_author : option string;
  com_body : option string;
  com_score : Z;
  com_created_utc : Z
}.

(** A submission.  Expanding the replies ([replace_more], [list]) may raise,
    and so may reading one reply; [sub_subreddit] is the lazily fetched
    [submission.subreddit.display_name]. *)
Record Submission : Type := {
  sub_id : string;
  sub_title : string;
  sub_selftext : option string;
  sub_author : option string;
  sub_score : Z;
  sub_created_utc : Z;
  sub_subreddit : outcome string;
  sub_permalink : string;
  sub_link_flair_text : option string;
  sub_num_comments : Z;
  sub_comments : outcome (list (outcome Comment))
}.

(** [search keyword limit attempt] is what
    [list(subreddit.search(keyword, limit=limit, sort='new', time_filter='all'))]
    gives the [attempt]-th time it is called for that keyword. *)
Record Subreddit : Type := {
  display_name : outcome string;
  search : string -> Z -> nat -> outcome (list Submission)
}.

(** [subreddit name] is [reddit.subreddit(name)]. *)
Record Reddit : Type := {
  read_only : bool;
  subreddit : string -> outcome Subreddit
}.

(** ** Records and data frames *)

(** A post record: the dict built by [extract_post_data]. *)
Definition dict : Type := list (string * value).

Fixpoint dict_get (d : dict) (key : string) : option value :=
  match d with
  | [] => None
  | (k, v) :: d' => if String.eqb k key then Some v else dict_get d' key
  end.

Definition dict_keys (d : dict) : list string := map fst d.

(** A cell of a data frame; [None] is NaN. *)
Definition cell : Type := option value.

Record DataFrame : Type := {
  columns : list string;
  rows : list (list cell)
}.

(** The CSV codec of pandas: [pd.read_csv] on the content of a file and the
    content [df.to_csv(..., index=False, encoding='utf-8-sig')] writes. *)
Class PandasCsv (csv : Type) : Type := {
  read_csv : csv -> outcome DataFrame;
  to_csv : DataFrame -> csv
}.

(** ** State and the monad [M] *)

Record state (csv : Type) : Type := {
  events : list event;            (* sleeps and log calls, oldest first *)
  reddit : option Reddit;         (* the module global [reddit] *)
  fs : gmap string csv            (* files by name *)
}.
Arguments events {csv} s.
Arguments reddit {csv} s.
Arguments fs {csv} s.

Definition M (csv A : Type) : Type := state csv -> outcome A * state csv.

Section monad.
Context {csv : Type}.

Definition ret {A} (a : A) : M csv A := fun st => (Return a, st).

Definition bind {A B} (m : M csv A) (k : A -> M csv B) : M csv B :=
  fun st =>
    match m st with
    | (Return a, st') => k a st'
    | (Raised e, st') => (Raised e, st')
    end.

Definition raise {A} (e : exn) : M csv A := fun st => (Raised e, st).

(** [try: m except Exception as e: h e] *)
Definition try_except {A} (m : M csv A) (h : exn -> M csv A) : M csv A :=
  fun st =>
    match m st with
    | (Return a, st') => (Return a, st')
    | (Raised e, st') => h e st'
    end.

Definition lift {A} (o : outcome A) : M csv A := fun st => (o, st).

Definition emit (ev : event) : M csv unit :=
  fun st =>
    (Return tt, {| events := events st ++ [ev]; reddit := reddit st; fs := fs st |}).

(** [logger.info], [logger.warning], [logger.error] *)
Definition logger (lvl : level) : M csv unit := emit (Log lvl).

(** [time.sleep(seconds)] *)
Definition sleep (seconds : Z) : M csv unit := emit (Sleep seconds).

Definition get_reddit : M csv (option Reddit) := fun st => (Return (reddit st), st).

Definition set_reddit (r : Reddit) : M csv unit :=
  fun st => (Return tt, {| events := events st; reddit := Some r; fs := fs st |}).

(** [os.path.exists(filename)] *)
Definition path_exists (filename : string) : M csv bool :=
  fun st => (Return (bool_decide (is_Some (fs st !! filename))), st).

Definition write_file (filename : string) (content : csv) : M csv unit :=
  fun st =>
    (Return tt, {| events := events st; reddit := reddit st;
                   fs := <[filename := content]> (fs st) |}).

End monad.

Declare Scope M_scope.
Delimit Scope M_scope with M.
Notation "x ← y ; z" := (bind y (fun x => z))
  (at level 20, y at level 100, z at level 200, only parsing) : M_scope.
Notation "' x ← y ; z" := (bind y (fun x => z))
  (at level 20, x pattern, y at level 100, z at level 200, only parsing) : M_scope.
Notation "x ;; z" := (bind x (fun _ => z))
  (at level 100, z at level 200, only parsing, right associativity) : M_scope.
Local Open Scope M_scope.

(** ** Predicate filters *)

Definition matches_keywords (text : option string) (keywords : list string) : bool :=
  match text with
  | None => false
  | Some text =>
      if negb (truthy text) then false
      else
        let text_lower := lower text in
        existsb (fun keyword => contains (lower keyword) text_lower) keywords
  end.

Definition is_in_date_range (post_timestamp : Z) : bool :=
  (start_date CONFIG <=? post_timestamp) && (post_timestamp <=? end_date CONFIG).

Definition meets_upvote_threshold (score : Z) : bool :=
  min_upvotes CONFIG <=? score.

(** ** Item extractor *)

(** The summary of a kept reply: the dict appended to [top_comments]. *)
Record CommentSummary : Type := {
  author : string;
  body : string;
  score : Z;
  created_utc : Z
}.

Module Json.

Definition hex_digit (n : nat) : string :=
  String.substring n 1 "0123456789abcdef".

(** The escapes of [json.dumps(..., ensure_ascii=False)]: the quote, the
    backslash and the control characters below 0x20. *)
Definition escape_char (c : ascii) : string :=
  let n := nat_of_ascii c in
  if (n =? 34)%nat then "\" +:+ dquote
  else if (n =? 92)%nat then "\\"
  else if (n =? 8)%nat then "\b"
  else if (n =? 12)%nat then "\f"
  else if (n =? 10)%nat then "\n"
  else if (n =? 13)%nat then "\r"
  else if (n =? 9)%nat then "\t"
  else if (n <? 32)%nat then "\u00" +:+ hex_digit (n / 16) +:+ hex_digit (n mod 16)
  else String c EmptyString.

Fixpoint escape (s : string) : string :=
  match s with
  | EmptyString => EmptyString
  | String c s' => escape_char c +:+ escape s'
  end.

Definition of_string (s : string) : string := dquote +:+ escape s +:+ dquote.

Definition key (k : string) : string := dquote +:+ k +:+ dquote +:+ ": ".

(** A float holding a whole number prints with a trailing [.0]. *)
Definition of_whole_float (z : Z) : string := str_of_Z z +:+ ".0".

Definition of_summary (c : CommentSummary) : string :=
  "{" +:+ key "author" +:+ of_string (author c) +:+ ", "
      +:+ key "body" +:+ of_string (body c) +:+ ", "
      +:+ key "score" +:+ str_of_Z (score c) +:+ ", "
      +:+ key "created_utc" +:+ of_whole_float (created_utc c) +:+ "}".

Fixpoint join (sep : string) (items : list string) : string :=
  match items with
  | [] => EmptyString
  | [x] => x
  | x :: rest => x +:+ sep +:+ join sep rest
  end.

(** [json.dumps(top_comments, ensure_ascii=False)] *)
Definition dumps (top_comments : list CommentSummary) : string :=
  "[" +:+ join ", " (map of_summary top_comments) +:+ "]".

End Json.

Module Date.

(** Year, month and day of the day that is [days] days after 1970-01-01. *)
Definition civil_from_days (days : Z) : Z * Z * Z :=
  let z := days + 719468 in
  let era := z / 146097 in
  let doe := z - era * 146097 in
  let yoe := (doe - doe / 1460 + doe / 36524 - doe / 146096) / 365 in
  let doy := doe - (365 * yoe + yoe / 4 - yoe / 100) in
  let mp := (5 * doy + 2) / 153 in
  let d := doy - (153 * mp + 2) / 5 + 1 in
  let m := if mp <? 10 then mp + 3 else mp - 9 in
  let y := yoe + era * 400 in
  (if m <=? 2 then y + 1 else y, m, d).

Definition two_digits (n : Z) : string :=
  if n <? 10 then "0" +:+ str_of_Z n else str_of_Z n.

(** [datetime.fromtimestamp(t, tz=timezone.utc).strftime('%Y-%m-%d %H:%M:%S')]
    for a timestamp in a year of four digits. *)
Definition strftime (t : Z) : string :=
  let '(y, m, d) := civil_from_days (t / 86400) in
  let secs := t mod 86400 in
  str_of_Z y +:+ "-" +:+ two_digits m +:+ "-" +:+ two_digits d +:+ " "
    +:+ two_digits (secs / 3600) +:+ ":" +:+ two_digits (secs mod 3600 / 60)
    +:+ ":" +:+ two_digits (secs mod 60).

End Date.

(** The test under which a reply is kept:
    [hasattr(comment, 'body') and comment.body and comment.body != '[deleted]']
    and then [matches_keywords(comment.body, CONFIG['keywords'])]. *)
Definition keeps (comment : Comment) : bool :=
  match com_body comment with
  | None => false
  | Some b =>
      truthy b && negb (String.eqb b "[deleted]")
      && matches_keywords (Some b) (keywords CONFIG)
  end.

Definition summary (comment : Comment) : CommentSummary := {|
  author := match com_author comment with Some a => a | None => "[deleted]" end;
  body := slice_to 500 (default EmptyString (com_body comment));
  score := com_score comment;
  created_utc := com_created_utc comment
|}.

(** The loop over the replies: the summaries appended so far, and the
    exception that stopped the loop, if one did. *)
Fixpoint scan_comments (comments : list (outcome Comment))
    (top_comments : list CommentSummary) : list CommentSummary * option exn :=
  match comments with
  | [] => (top_comments, None)
  | Raised e :: _ => (top_comments, Some e)
  | Return comment :: rest =>
      scan_comments rest
        (if keeps comment then top_comments ++ [summary comment] else top_comments)
  end.

Section extractor.
Context {csv : Type}.

(** The inner [try] of [extract_post_data]: an exception is logged and the
    summaries collected before it stay in [top_comments]. *)
Definition collect_top_comments (submission : Submission) : M csv (list CommentSummary) :=
  match sub_comments submission with
  | Raised e => logger WARNING ;; ret []
  | Return comments =>
      match scan_comments (take 5 comments) [] with
      | (top_comments, Some e) => logger WARNING ;; ret top_comments
      | (top_comments, None) => ret top_comments
      end
  end.

Definition extract_post_data (submission : Submission) : M csv (option dict) :=
  try_except
    (if negb (meets_upvote_threshold (sub_score submission)) then ret None
     else if negb (is_in_date_range (sub_created_utc submission)) then ret None
     else
       let title_match := matches_keywords (Some (sub_title submission)) (keywords CONFIG) in
       let content_match := matches_keywords (sub_selftext submission) (keywords CONFIG) in
       if negb (title_match || content_match) then ret None
       else
         top_comments ← collect_top_comments submission;
         let comments_json :=
           match top_comments with
           | [] => EmptyString
           | _ :: _ => Json.dumps top_comments
           end in
         subreddit_name ← lift (sub_subreddit submission);
         ret (Some
           [ ("post_id", VStr (sub_id submission));
             ("title", VStr (sub_title submission));
             ("author", VStr (default "[deleted]" (sub_author submission)));
             ("content",
               VStr (match sub_selftext submission with
                     | Some t => if truthy t then slice_to 2000 t else EmptyString
                     | None => EmptyString
                     end));
             ("upvotes", VInt (sub_score submission));
             ("timestamp", VInt (sub_created_utc submission));
             ("date", VStr (Date.strftime (sub_created_utc submission)));
             ("subreddit", VStr subreddit_name);
             ("url", VStr ("https://www.reddit.com" +:+ sub_permalink submission));
             ("flair",
               VStr (match sub_link_flair_text submission with
                     | Some f => if truthy f then f else EmptyString
                     | None => EmptyString
                     end));
             ("comment_count", VInt (sub_num_comments submission));
             ("top_comments", VStr comments_json) ]))
    (fun e => logger ERROR ;; ret None).

End extractor.

(** ** Transport: rate limiting and retries *)

(** ["RATE_LIMIT" in error_message.upper() or "429" in error_message] *)
Definition is_rate_limit (error_message : string) : bool :=
  contains "RATE_LIMIT" (upper error_message) || contains "429" error_message.

Section transport.
Context {csv : Type}.

Definition rate_limit_delay : M csv unit := sleep (request_delay CONFIG).

(** What the [except] clauses of [safe_api_call] do with the exception of
    attempt number [attempt]. *)
Definition on_failure (attempt : nat) (e : exn) : M csv unit :=
  match e with
  | RedditAPIException error_message =>
      logger WARNING ;;
      if is_rate_limit error_message then
        let wait_time := retry_delay CONFIG * (Z.of_nat attempt + 1) in
        logger WARNING ;; sleep wait_time
      else ret tt
  | ClientException _ =>
      logger WARNING ;; sleep (retry_delay CONFIG)
  | _ =>
      logger ERROR ;; sleep (retry_delay CONFIG)
  end.

(** The [for attempt in range(...)] loop with [remaining] rounds to go;
    [func attempt] is the outcome of the call made in round [attempt]. *)
Fixpoint attempts {A} (func : nat -> outcome A) (remaining attempt : nat)
    (last_exception : option exn) : M csv A :=
  match remaining with
  | O =>
      logger ERROR ;;
      match last_exception with
      | Some e => raise e
      | None => raise TypeError      (* [raise None] *)
      end
  | S remaining' =>
      rate_limit_delay ;;
      match func attempt with
      | Return result => ret result
      | Raised e =>
          on_failure attempt e ;;
          attempts func remaining' (S attempt) (Some e)
      end
  end.

Definition safe_api_call {A} (func : nat -> outcome A) : M csv A :=
  attempts func (max_retries CONFIG) 0%nat None.

End transport.

(** ** Query aggregator *)

Section aggregator.
Context {csv : Type}.

(** The loop over the results of one search; [all_posts] is the set of
    identities seen, [posts_data] the records extracted so far. *)
Fixpoint each_submission (search_results : list Submission)
    (all_posts : gset string) (posts_data : list dict)
    : M csv (gset string * list dict) :=
  match search_results with
  | [] => ret (all_posts, posts_data)
  | submission :: rest =>
      let all_posts := {[sub_id submission]} ∪ all_posts in
      post_data ← extract_post_data submission;
      match post_data with
      | Some post_data =>
          logger INFO ;;
          each_submission rest all_posts (posts_data ++ [post_data])
      | None => each_submission rest all_posts posts_data
      end
  end.

(** The loop over the keywords.  Only [safe_api_call] raises inside the
    inner [try], before any record of that keyword is appended, so the
    handler continues with the lists as they were. *)
Fixpoint each_keyword (sr : Subreddit) (limit : Z) (kws : list string)
    (all_posts : gset string) (posts_data : list dict)
    : M csv (gset string * list dict) :=
  match kws with
  | [] => ret (all_posts, posts_data)
  | keyword :: rest =>
      '(all_posts, posts_data) ←
        try_except
          (logger INFO ;;
           search_results ← safe_api_call (search sr keyword limit);
           each_submission search_results all_posts posts_data)
          (fun e => logger WARNING ;; ret (all_posts, posts_data));
      each_keyword sr limit rest all_posts posts_data
  end.

(** Only [reddit.subreddit] raises inside the outer [try], when
    [posts_data] is still empty. *)
Definition search_subreddit (subreddit_name : string) (limit : Z) : M csv (list dict) :=
  r ← get_reddit;
  match r with
  | None => logger ERROR ;; ret []
  | Some reddit =>
      try_except
        (logger INFO ;;
         sr ← lift (subreddit reddit subreddit_name);
         '(_, posts_data) ← each_keyword sr limit (keywords CONFIG) ∅ [];
         logger INFO ;;
         ret posts_data)
        (fun e => logger ERROR ;; ret [])
  end.

End aggregator.

(** ** pandas: the operations [save_to_csv] uses *)

Module pd.

(** Keys in the order of their first appearance. *)
Fixpoint first_seen (seen : list string) (keys : list string) : list string :=
  match keys with
  | [] => []
  | k :: rest =>
      if bool_decide (k ∈ seen) then first_seen seen rest
      else k :: first_seen (seen ++ [k]) rest
  end.

(** [pd.DataFrame(posts)]: the columns are the keys of the dicts, a key a
    dict lacks gives NaN. *)
Definition DataFrame_of (posts : list dict) : DataFrame := {|
  columns := first_seen [] (concat (map dict_keys posts));
  rows := map (fun d => map (dict_get d) (first_seen [] (concat (map dict_keys posts)))) posts
|}.

Fixpoint index_of (col : string) (cols : list string) : option nat :=
  match cols with
  | [] => None
  | c :: rest => if String.eqb c col then Some O else S <$> index_of col rest
  end.

(** The cell of [row] under the column [col] of a frame with columns [cols]. *)
Definition cell_at (cols : list string) (row : list cell) (col : string) : cell :=
  match index_of col cols with
  | Some i => default None (row !! i)
  | None => None
  end.

(** [df[col] = ''] for a column the frame lacks. *)
Definition add_column (df : DataFrame) (col : string) : DataFrame := {|
  columns := columns df ++ [col];
  rows := map (fun r => r ++ [Some (VStr EmptyString)]) (rows df)
|}.

(** [if col not in df.columns: df[col] = ''] *)
Definition ensure_column (df : DataFrame) (col : string) : DataFrame :=
  if bool_decide (col ∈ columns df) then df else add_column df col.

(** [df[cols]]: a column the frame lacks is a KeyError. *)
Definition select (df : DataFrame) (cols : list string) : outcome DataFrame :=
  match filter (fun c => c ∉ columns df) cols with
  | [] => Return {| columns := cols;
                    rows := map (fun r => map (cell_at (columns df) r) cols) (rows df) |}
  | missing :: _ => Raised (KeyError missing)
  end.

(** [df[col].astype(str)] *)
Definition astype_str (c : cell) : string :=
  match c with
  | Some v => str v
  | None => "nan"
  end.

Definition column_as_str (df : DataFrame) (col : string) : outcome (list string) :=
  if bool_decide (col ∈ columns df)
  then Return (map (fun r => astype_str (cell_at (columns df) r col)) (rows df))
  else Raised (KeyError col).

(** [pd.concat([a, b], ignore_index=True)]: the columns of [a], then those
    only [b] has; every row is laid out under them. *)
Definition concat (a b : DataFrame) : DataFrame :=
  let cols := columns a ++ filter (fun c => c ∉ columns a) (columns b) in
  {| columns := cols;
     rows := map (fun r => map (cell_at (columns a) r) cols) (rows a)
             ++ map (fun r => map (cell_at (columns b) r) cols) (rows b) |}.

End pd.

(** ** Incremental persister *)

Definition column_order : list string :=
  ["post_id"; "title"; "author"; "content"; "upvotes"; "timestamp"; "date";
   "subreddit"; "url"; "flair"; "comment_count"; "top_comments"].

(** [[post for post in posts_data if str(post['post_id']) not in existing_ids]] *)
Fixpoint new_posts_of (posts_data : list dict) (existing_ids : gset string)
    : outcome (list dict) :=
  match posts_data with
  | [] => Return []
  | post :: rest =>
      match dict_get post "post_id" with
      | None => Raised (KeyError "post_id")
      | Some post_id =>
          match new_posts_of rest existing_ids with
          | Raised e => Raised e
          | Return new_posts =>
              Return (if bool_decide (str post_id ∈ existing_ids)
                      then new_posts else post :: new_posts)
          end
      end
  end.

Section persister.
Context {csv : Type} `{!PandasCsv csv}.

(** [pd.read_csv(filename)] *)
Definition pd_read_csv (filename : string) : M csv DataFrame :=
  fun st =>
    match fs st !! filename with
    | Some content => (read_csv content, st)
    | None => (Raised (OtherException "FileNotFoundError"), st)
    end.

(** [df.to_csv(filename, index=False, encoding='utf-8-sig')] *)
Definition df_to_csv (df : DataFrame) (filename : string) : M csv unit :=
  write_file filename (to_csv df).

Definition save_to_csv (posts_data : list dict) (filename : option string) : M csv unit :=
  match posts_data with
  | [] => logger WARNING ;; ret tt
  | _ :: _ =>
      let filename := default (output_file CONFIG) filename in
      try_except
        (let df := pd.DataFrame_of posts_data in
         let df := fold_left pd.ensure_column column_order df in
         df ← lift (pd.select df column_order);
         file_exists ← path_exists filename;
         if file_exists then
           existing_df ← pd_read_csv filename;
           ids ← lift (pd.column_as_str existing_df "post_id");
           let existing_ids : gset string := list_to_set ids in
           new_posts ← lift (new_posts_of posts_data existing_ids);
           match new_posts with
           | _ :: _ =>
               new_df ← lift (pd.select (pd.DataFrame_of new_posts) column_order);
               let df := pd.concat existing_df new_df in
               logger INFO ;;
               df_to_csv df filename ;;
               logger INFO
           | [] => logger INFO ;; ret tt
           end
         else
           logger INFO ;;
           df_to_csv df filename ;;
           logger INFO)
        (fun e => logger ERROR ;; raise e)
  end.

End persister.
(** ** Cross-group deduplicator and the driver *)

(** The loop of [main] that removes duplicates based on [post_id]. *)
Fixpoint remove_duplicates (all_posts_data : list dict) (seen_ids : gset value)
    (unique_posts : list dict) : outcome (list dict) :=
  match all_posts_data with
  | [] => Return unique_posts
  | post :: rest =>
      match dict_get post "post_id" with
      | None => Raised (KeyError "post_id")
      | Some post_id =>
          if bool_decide (post_id ∈ seen_ids)
          then remove_duplicates rest seen_ids unique_posts
          else remove_duplicates rest ({[post_id]} ∪ seen_ids) (unique_posts ++ [post])
      end
  end.

Definition unique_posts_of (all_posts_data : list dict) : outcome (list dict) :=
  remove_duplicates all_posts_data ∅ [].

Section driver.
Context {csv : Type} `{!PandasCsv csv}.

(** [praw_Reddit] is the outcome of the constructor call [praw.Reddit(...)]. *)
Definition initialize_reddit_api (praw_Reddit : outcome Reddit) : M csv Reddit :=
  try_except
    (logger INFO ;;
     r ← lift praw_Reddit;
     set_reddit r ;;
     (if read_only r then logger INFO else logger WARNING) ;;
     try_except
       (test_subreddit ← lift (subreddit r "GlobalOffensive");
        _ ← lift (display_name test_subreddit);
        logger INFO)
       (fun e => logger ERROR ;; raise e) ;;
     ret r)
    (fun e => logger ERROR ;; logger ERROR ;; raise e).

Definition check_reddit_api_status : M csv bool :=
  try_except
    (r ← get_reddit;
     match r with
     | None => logger ERROR ;; ret false
     | Some r =>
         test_subreddit ← lift (subreddit r "GlobalOffensive");
         _ ← lift (display_name test_subreddit);
         ret true
     end)
    (fun e => logger ERROR ;; ret false).

(** The loop of [main] over the subreddits. *)
Fixpoint each_subreddit (names : list string) (all_posts_data : list dict)
    : M csv (list dict) :=
  match names with
  | [] => ret all_posts_data
  | subreddit_name :: rest =>
      all_posts_data ←
        try_except
          (posts_data ← search_subreddit subreddit_name 1000;
           ret (all_posts_data ++ posts_data))
          (fun e => logger ERROR ;; ret all_posts_data);
      each_subreddit rest all_posts_data
  end.

Definition main (praw_Reddit : outcome Reddit) : M csv unit :=
  try_except
    (_ ← initialize_reddit_api praw_Reddit;
     ok ← check_reddit_api_status;
     if negb ok then logger ERROR ;; ret tt
     else
       logger INFO ;; logger INFO ;; logger INFO ;; logger INFO ;; logger INFO ;;
       all_posts_data ← each_subreddit (subreddits CONFIG) [];
       unique_posts ← lift (unique_posts_of all_posts_data);
       logger INFO ;;
       match unique_posts with
       | _ :: _ => save_to_csv unique_posts None ;; logger INFO
       | [] => logger WARNING
       end)
    (fun e => logger ERROR ;; raise e).

End driver.

(** * Notions used to state the properties *)

(** The row of a record under the fixed schema. *)
Definition row_of (post : dict) : list cell := map (dict_get post) column_order.

(** [sub] occurs in [s]: some text before it, some text after it. *)
Definition is_substring (sub s : string) : Prop :=
  ∃ pre post, s = pre +:+ sub +:+ post.

(** The replies read before the first one whose reading raises. *)
Fixpoint read_before (comments : list (outcome Comment)) : list Comment :=
  match comments with
  | Return c :: rest => c :: read_before rest
  | _ => []
  end.

(** The first exception met when the replies are read in order. *)
Fixpoint first_error (comments : list (outcome Comment)) : option exn :=
  match comments with
  | [] => None
  | Raised e :: _ => Some e
  | Return _ :: rest => first_error rest
  end.

(** The [top_comments] field of a record whose kept replies are [kept]. *)
Definition replies_field (kept : list CommentSummary) : string :=
  match kept with
  | [] => EmptyString
  | _ :: _ => Json.dumps kept
  end.

(** A submission passes the three checks of [extract_post_data]. *)
Definition qualifies (submission : Submission) : Prop :=
  min_upvotes CONFIG ≤ sub_score submission
  ∧ start_date CONFIG ≤ sub_created_utc submission ≤ end_date CONFIG
  ∧ (matches_keywords (Some (sub_title submission)) (keywords CONFIG) = true
     ∨ matches_keywords (sub_selftext submission) (keywords CONFIG) = true).

Section extractor_notions.
Context {csv : Type}.
Implicit Types (submission : Submission) (st : state csv).

(** The state [st] after the events [evs]. *)
Definition logged (evs : list event) st : state csv :=
  {| events := events st ++ evs; reddit := reddit st; fs := fs st |}.

Definition warning_if (error : option exn) : list event :=
  match error with
  | Some _ => [Log WARNING]
  | None => []
  end.

(** The replies kept for a submission: of its first five replies, those read
    before an exception that pass [keeps]; none when the expansion raises. *)
Definition kept_replies submission : list CommentSummary :=
  match sub_comments submission with
  | Raised _ => []
  | Return comments => map summary (filter (λ c, keeps c) (read_before (take 5 comments)))
  end.

(** Whether reading the replies of a submission raises. *)
Definition replies_error submission : option exn :=
  match sub_comments submission with
  | Raised e => Some e
  | Return comments => first_error (take 5 comments)
  end.

(** The record [extract_post_data] builds for a submission that passes the
    checks, given the kept replies and the name of its subreddit. *)
Definition record_of submission (subreddit_name : string) : dict :=
  [ ("post_id", VStr (sub_id submission));
    ("title", VStr (sub_title submission));
    ("author", VStr (default "[deleted]" (sub_author submission)));
    ("content",
      VStr (match sub_selftext submission with
            | Some t => if truthy t then slice_to 2000 t else EmptyString
            | None => EmptyString
            end));
    ("upvotes", VInt (sub_score submission));
    ("timestamp", VInt (sub_created_utc submission));
    ("date", VStr (Date.strftime (sub_created_utc submission)));
    ("subreddit", VStr subreddit_name);
    ("url", VStr ("https://www.reddit.com" +:+ sub_permalink submission));
    ("flair",
      VStr (match sub_link_flair_text submission with
            | Some f => if truthy f then f else EmptyString
            | None => EmptyString
            end));
    ("comment_count", VInt (sub_num_comments submission));
    ("top_comments", VStr (replies_field (kept_replies submission))) ].

End extractor_notions.

(** The identity of a record: [post['post_id']], when the key is there. *)
Definition post_id (post : dict) : option value := dict_get post "post_id".

(** First-occurrence-wins deduplication by identity, as the specification
    words it: a record stays, and the later records of its identity go. *)
Fixpoint first_occurrences (posts : list dict) : list dict :=
  match posts with
  | [] => []
  | p :: rest => p :: filter (λ q, post_id q ≠ post_id p) (first_occurrences rest)
  end.

(** A record whose identity is not in the set of identities seen so far. *)
Definition unseen (seen_ids : gset value) (post : dict) : Prop :=
  ∀ v, post_id post = Some v → v ∉ seen_ids.

#[global] Instance unseen_dec seen_ids post : Decision (unseen seen_ids post).
Proof.
  unfold unseen. destruct (post_id post) as [v|].
  - destruct (decide (v ∈ seen_ids)) as [Hin|Hout].
    + right. intros H. by apply (H v).
    + left. by intros ? [= <-].
  - left. by intros.
Defined.

(** A record that has every column of the fixed schema. *)
Definition normalized (post : dict) : Prop :=
  ∀ col, col ∈ column_order → is_Some (dict_get post col).

(** A frame with the fixed schema: the twelve columns in their order, and a
    cell under each of them in every row. *)
Definition dataset (df : DataFrame) : Prop :=
  columns df = column_order
  ∧ Forall (λ r, length r = length column_order) (rows df).

(** The identities of the rows of a frame, as strings. *)
Definition existing_ids_of (df : DataFrame) : list string :=
  map (λ r, pd.astype_str (pd.cell_at (columns df) r "post_id")) (rows df).

(** [str(post['post_id'])], for a record that has the key. *)
Definition post_id_str (post : dict) : string :=
  from_option str EmptyString (post_id post).

(** The state [st] after the events [evs] and a write of [content] to the
    file [filename]. *)
Definition written {csv} (filename : string) (content : csv) (evs : list event)
    (st : state csv) : state csv :=
  {| events := events st ++ evs; reddit := reddit st;
     fs := <[filename := content]> (fs st) |}.

(** The frame the create branch of [save_to_csv] writes for [posts]. *)
Definition created_frame (posts : list dict) : DataFrame :=
  let df := fold_left pd.ensure_column column_order (pd.DataFrame_of posts) in
  {| columns := column_order;
     rows := map (λ r, map (pd.cell_at (columns df) r) column_order) (rows df) |}.


(** The events of the [except] clause that handles the exception [e] of
    attempt number [attempt]. *)
Definition failure_events (attempt : nat) (e : exn) : list event :=
  match e with
  | RedditAPIException error_message =>
      if is_rate_limit error_message
      then [Log WARNING; Log WARNING;
            Sleep (retry_delay CONFIG * (Z.of_nat attempt + 1))]
      else [Log WARNING]
  | ClientException _ => [Log WARNING; Sleep (retry_delay CONFIG)]
  | _ => [Log ERROR; Sleep (retry_delay CONFIG)]
  end.

#[global] Instance level_eq_dec : EqDecision level.
Proof. solve_decision. Defined.

#[global] Instance event_eq_dec : EqDecision event.
Proof. solve_decision. Defined.

(** The seconds slept, in order. *)
Definition sleeps_of (evs : list event) : list Z :=
  omap (λ ev, match ev with Sleep s => Some s | Log _ => None end) evs.

(** What [remaining] rounds of [safe_api_call] give, from round [attempt]. *)
Fixpoint api_result {A} (func : nat -> outcome A) (remaining attempt : nat)
    (last_exception : option exn) : outcome A :=
  match remaining with
  | O => Raised (default TypeError last_exception)
  | S remaining' =>
      match func attempt with
      | Return result => Return result
      | Raised e => api_result func remaining' (S attempt) (Some e)
      end
  end.

(** The events of these rounds. *)
Fixpoint api_events {A} (func : nat -> outcome A) (remaining attempt : nat) : list event :=
  match remaining with
  | O => [Log ERROR]
  | S remaining' =>
      Sleep (request_delay CONFIG) ::
      match func attempt with
      | Return _ => []
      | Raised e => failure_events attempt e ++ api_events func remaining' (S attempt)
      end
  end.

(** The three checks of [extract_post_data], as one test. *)
Definition passes (submission : Submission) : bool :=
  meets_upvote_threshold (sub_score submission)
  && is_in_date_range (sub_created_utc submission)
  && (matches_keywords (Some (sub_title submission)) (keywords CONFIG)
      || matches_keywords (sub_selftext submission) (keywords CONFIG)).

(** The value [extract_post_data] returns for a submission. *)
Definition extract_value (submission : Submission) : option dict :=
  if passes submission then
    match sub_subreddit submission with
    | Return name => Some (record_of submission name)
    | Raised _ => None
    end
  else None.

(** The records one keyword adds for a subreddit: those extracted from the
    results of its search, none when the search fails on every attempt. *)
Definition keyword_posts (sr : Subreddit) (limit : Z) (keyword : string) : list dict :=
  match api_result (search sr keyword limit) (max_retries CONFIG) 0%nat None with
  | Return search_results => omap extract_value search_results
  | Raised _ => []
  end.

(** The records one subreddit adds. *)
Definition subreddit_posts (r : Reddit) (subreddit_name : string) (limit : Z) : list dict :=
  match subreddit r subreddit_name with
  | Return sr => concat (map (keyword_posts sr limit) (keywords CONFIG))
  | Raised _ => []
  end.

(** The seconds slept in all. *)
Definition total_sleep (evs : list event) : Z := foldr Z.add 0 (sleeps_of evs).

(** The longest wait of [remaining] rounds of [safe_api_call] from round
    [attempt]: every round fails with a rate-limit error. *)
Fixpoint worst_wait (remaining attempt : nat) : Z :=
  match remaining with
  | O => 0
  | S remaining' =>
      request_delay CONFIG + retry_delay CONFIG * (Z.of_nat attempt + 1)
      + worst_wait remaining' (S attempt)
  end.

(** What the verification of the client reads: the display name of
    r/GlobalOffensive. *)
Definition verified (r : Reddit) : outcome string :=
  match subreddit r "GlobalOffensive" with
  | Return sr => display_name sr
  | Raised e => Raised e
  end.

(** The exception that stops the setup, if one does: the constructor of the
    client raises, or the verification does. *)
Definition setup_error (praw_Reddit : outcome Reddit) : option exn :=
  match praw_Reddit with
  | Raised e => Some e
  | Return r =>
      match verified r with
      | Raised e => Some e
      | Return _ => None
      end
  end.

(** The records of a run: those of every configured subreddit, in order,
    first occurrences only. *)
Definition run_posts (r : Reddit) : list dict :=
  first_occurrences
    (concat (map (λ name, subreddit_posts r name 1000) (subreddits CONFIG))).

(** * Sample inputs *)

(** A codec for examples: the file holds the table itself. *)

#[global] Instance table_csv : PandasCsv DataFrame := {|
  read_csv := Return;
  to_csv := fun df => df
|}.

Definition initial (files : gmap string DataFrame) : state DataFrame :=
  {| events := []; reddit := None; fs := files |}.

Definition sample_comment (b : string) : Comment :=
  {| com_author := Some "bob"; com_body := Some b; com_score := 2;
     com_created_utc := 1731024100 |}.

Definition sample_submission (i ttl : string) (sc : Z)
    (replies : outcome (list (outcome Comment))) : Submission :=
  {| sub_id := i; sub_title := ttl; sub_selftext := Some EmptyString;
     sub_author := Some "alice"; sub_score := sc; sub_created_utc := 1731024000;
     sub_subreddit := Return "csgo"; sub_permalink := "/r/csgo/comments/" +:+ i;
     sub_link_flair_text := None; sub_num_comments := 12;
     sub_comments := replies |}.

Definition post_with_id (i ttl : string) : dict :=
  [("post_id", VStr i); ("title", VStr ttl); ("author", VStr "alice");
   ("content", VStr EmptyString); ("upvotes", VInt 10); ("timestamp", VInt 1731024000);
   ("date", VStr "2024-11-08 00:00:00"); ("subreddit", VStr "csgo");
   ("url", VStr "https://www.reddit.com/r/csgo"); ("flair", VStr EmptyString);
   ("comment_count", VInt 0); ("top_comments", VStr EmptyString)].

(** A submission that passes the checks and has twelve replies, all of which
    match a keyword. *)
Definition twelve_replies : Submission :=
  sample_submission "a1" "Gambling is bad" 10
    (Return (replicate 12 (Return (sample_comment "lootbox!")))).

(** A submission whose second reply raises when it is read. *)
Definition broken_second_reply : Submission :=
  sample_submission "a1" "Gambling is bad" 10
    (Return [Return (sample_comment "lootbox!"); Raised (OtherException "reply")]).

(** Records with identities a, b, a, c, b. *)
Definition abacb : list dict :=
  [post_with_id "a" "1"; post_with_id "b" "2"; post_with_id "a" "3";
   post_with_id "c" "4"; post_with_id "b" "5"].

(** The file of a first run that found the records x and y. *)
Definition dataset_xy : DataFrame :=
  {| columns := column_order;
     rows := [row_of (post_with_id "x" "t1"); row_of (post_with_id "y" "t2")] |}.

(** The records of the first run. *)
Definition batch_xy : list dict := [post_with_id "x" "t1"; post_with_id "y" "t2"].

(** A second run finds y again, under a new title, and z. *)
Definition batch_yz : list dict := [post_with_id "y" "t3"; post_with_id "z" "t4"].

(** A record with an identity and no other column. *)
Definition bare_z : dict := [("post_id", VStr "z")].

(** The disk after the first run: the output file holds [dataset_xy]. *)
Definition disk_xy : state DataFrame :=
  initial {[ output_file CONFIG := dataset_xy ]}.

(** A query that fails with a client error on every attempt. *)
Definition always_timeout : nat -> outcome (list Submission) :=
  λ _, Raised (ClientException "timeout").

(** A mock service: the search for the keyword gambling in r/csgo returns
    [results]; every other search returns nothing. *)
Definition mock_subreddit (results : list Submission) : Subreddit :=
  {| display_name := Return "GlobalOffensive";
     search := λ keyword _ _,
       if String.eqb keyword "gambling" then Return results else Return [] |}.

Definition mock_reddit (results : list Submission) : Reddit :=
  {| read_only := true;
     subreddit := λ name,
       if String.eqb name "csgo" then Return (mock_subreddit results)
       else Return (mock_subreddit []) |}.

(** A candidate with the given score, a title that holds a keyword and no
    reply. *)
Definition candidate (sc : Z) : Submission :=
  sample_submission "a1" "Gambling is bad" sc (Return []).

(** A record without an identity. *)
Definition no_id : dict := [("title", VStr "t")].

(** A file that is not a dataset: it has no [post_id] column. *)
Definition foreign_frame : DataFrame := {| columns := ["title"]; rows := [] |}.

Definition disk_foreign : state DataFrame :=
  initial {[ output_file CONFIG := foreign_frame ]}.

(** A query that is rate limited on every attempt. *)
Definition always_rate_limited : nat -> outcome (list Submission) :=
  λ _, Raised (RedditAPIException "RATE_LIMIT exceeded").

(** A query that fails once with a client error and then succeeds. *)
Definition second_time_lucky (results : list Submission) : nat -> outcome (list Submission) :=
  λ attempt, match attempt with
             | O => Raised (ClientException "timeout")
             | S _ => Return results
             end.

(** A subreddit whose every search returns [results] at the first attempt. *)
Definition echo_subreddit (results : list Submission) : Subreddit :=
  {| display_name := Return "csgo"; search := λ _ _ _, Return results |}.

(** A client whose verification fails. *)
Definition unreachable_reddit : Reddit :=
  {| read_only := true; subreddit := λ _, Raised (OtherException "unreachable") |}.

(** * Properties *)

(** ** Strings *)

Lemma prefix_spec (a s : string) :
  String.prefix a s = true ↔ ∃ post, s = a +:+ post.
Proof.
  revert s. induction a as [|c a IH]; intros s; simpl.
  - split; [intros _; by exists s | by destruct s].
  - destruct s as [|d s]; simpl.
    + split; [done | intros [post H]; discriminate].
    + destruct (ascii_dec c d) as [->|Hne].
      * rewrite IH. split; intros [post H]; exists post; [by rewrite H | by injection H].
      * split; [done | intros [post H]; injection H; intros; congruence].
Qed.

Lemma contains_cons (sub : string) (c : ascii) (s : string) :
  contains sub (String c s) = String.prefix sub (String c s) || contains sub s.
Proof. reflexivity. Qed.

Lemma contains_spec (sub s : string) :
  contains sub s = true ↔ is_substring sub s.
Proof.
  induction s as [|c s IH].
  - change (contains sub EmptyString) with (String.prefix sub EmptyString || false).
    rewrite orb_false_r, prefix_spec. split.
    + intros [post H]. by exists EmptyString, post.
    + intros [pre [post H]]. destruct pre; [by exists post | discriminate].
  - rewrite contains_cons, orb_true_iff, prefix_spec, IH. split.
    + intros [[post H]|[pre [post H]]].
      * by exists EmptyString, post.
      * exists (String c pre), post. simpl. by rewrite H.
    + intros [pre [post H]]. destruct pre as [|d pre]; simpl in H.
      * left. by exists post.
      * right. injection H as _ H. by exists pre, post.
Qed.

Lemma truthy_spec (s : string) : truthy s = true ↔ s ≠ EmptyString.
Proof. destruct s; simpl; split; congruence. Qed.

Lemma slice_to_length (n : nat) (s : string) :
  (String.length (slice_to n s) ≤ n)%nat.
Proof.
  unfold slice_to. revert s. induction n as [|n IH]; intros [|c s]; simpl; try lia.
  specialize (IH s). lia.
Qed.

(** ** Predicate filters *)

Lemma meets_upvote_threshold_spec (score : Z) :
  meets_upvote_threshold score = true ↔ min_upvotes CONFIG ≤ score.
Proof. unfold meets_upvote_threshold. apply Z.leb_le. Qed.

Lemma is_in_date_range_spec (t : Z) :
  is_in_date_range t = true ↔ start_date CONFIG ≤ t ≤ end_date CONFIG.
Proof. unfold is_in_date_range. rewrite andb_true_iff, !Z.leb_le. done. Qed.

Lemma matches_keywords_some (text : string) (kws : list string) :
  matches_keywords (Some text) kws = true ↔
  text ≠ EmptyString ∧ ∃ k, k ∈ kws ∧ is_substring (lower k) (lower text).
Proof.
  unfold matches_keywords. destruct (truthy text) eqn:Ht; simpl.
  - apply truthy_spec in Ht. rewrite existsb_exists. split.
    + intros [k [Hin Hk]]. split; [done|]. exists k.
      by rewrite list_elem_of_In, <- contains_spec.
    + intros [_ [k [Hin Hk]]]. exists k.
      by rewrite <- list_elem_of_In, contains_spec.
  - split; [done|]. intros [Hne _]. apply truthy_spec in Hne. congruence.
Qed.

(** C5 (as amended): [matches_keywords(T, K)] is true exactly when [T] is
    not empty and some keyword of [K], lowercased, is a substring of [T]
    lowercased; for an empty or an absent [T] it is false whatever [K] is. *)
Theorem matches_keywords_spec (T : string) (K : list string) :
  (matches_keywords (Some T) K = true ↔
     T ≠ EmptyString ∧ ∃ k, k ∈ K ∧ is_substring (lower k) (lower T))
  ∧ matches_keywords (Some EmptyString) K = false
  ∧ matches_keywords None K = false.
Proof. split; [apply matches_keywords_some | done]. Qed.

(** C5 (as stated) fails on the empty text with an empty keyword: the empty
    keyword is a substring of the empty text, and the answer is false. *)
Lemma matches_keywords_empty_text :
  ¬ (matches_keywords (Some EmptyString) [EmptyString] = true ↔
     ∃ k, k ∈ [EmptyString] ∧ is_substring (lower k) (lower EmptyString)).
Proof.
  intros [_ H]. enough (matches_keywords (Some EmptyString) [EmptyString] = true) by done.
  apply H. exists EmptyString. split; [by left|]. by exists EmptyString, EmptyString.
Qed.

(** ** Item extractor *)

Lemma scan_comments_spec (comments : list (outcome Comment)) (acc : list CommentSummary) :
  scan_comments comments acc =
  (acc ++ map summary (filter (λ c, keeps c) (read_before comments)), first_error comments).
Proof.
  revert acc. induction comments as [|[c|e] rest IH]; intros acc; simpl.
  - by rewrite app_nil_r.
  - rewrite IH. rewrite filter_cons. destruct (keeps c) eqn:Hk.
    + rewrite decide_True by done. simpl. by rewrite <- app_assoc.
    + rewrite decide_False; [done | by intros ?].
  - by rewrite app_nil_r.
Qed.

Lemma read_before_length (comments : list (outcome Comment)) :
  (length (read_before comments) ≤ length comments)%nat.
Proof. induction comments as [|[c|e] rest IH]; simpl; lia. Qed.

Lemma read_before_all (cs : list Comment) : read_before (map Return cs) = cs.
Proof. induction cs as [|c cs IH]; simpl; congruence. Qed.

Lemma first_error_none (cs : list Comment) : first_error (map Return cs) = None.
Proof. induction cs as [|c cs IH]; simpl; congruence. Qed.

Lemma keeps_spec (c : Comment) :
  keeps c = true ↔
  ∃ b, com_body c = Some b ∧ b ≠ EmptyString ∧ b ≠ "[deleted]"
       ∧ matches_keywords (Some b) (keywords CONFIG) = true.
Proof.
  unfold keeps. destruct (com_body c) as [b|].
  - rewrite !andb_true_iff, negb_true_iff, truthy_spec, String.eqb_neq.
    split; [intros [[? ?] ?]; by exists b | intros [b' [[= <-] (? & ? & ?)]]; done].
  - split; [done | intros [b [? _]]; done].
Qed.

Lemma json_dumps_not_empty (l : list CommentSummary) : Json.dumps l ≠ EmptyString.
Proof. done. Qed.

Section extractor_facts.
Context {csv : Type}.
Implicit Types (submission : Submission) (st : state csv).

Lemma logged_nil st : logged [] st = st.
Proof. destruct st. unfold logged. simpl. by rewrite app_nil_r. Qed.

Lemma logged_logged evs evs' st : logged evs' (logged evs st) = logged (evs ++ evs') st.
Proof. unfold logged. simpl. by rewrite app_assoc. Qed.

Lemma collect_top_comments_spec submission st :
  collect_top_comments submission st =
  (Return (kept_replies submission),
   logged (warning_if (replies_error submission)) st).
Proof.
  unfold collect_top_comments, kept_replies, replies_error.
  destruct (sub_comments submission) as [comments|e]; [|done].
  rewrite scan_comments_spec. simpl.
  destruct (first_error (take 5 comments)); [done|].
  unfold ret. simpl. by rewrite logged_nil.
Qed.

Lemma qualifies_checks submission :
  qualifies submission ↔
  meets_upvote_threshold (sub_score submission) = true
  ∧ is_in_date_range (sub_created_utc submission) = true
  ∧ matches_keywords (Some (sub_title submission)) (keywords CONFIG)
    || matches_keywords (sub_selftext submission) (keywords CONFIG) = true.
Proof.
  unfold qualifies.
  by rewrite meets_upvote_threshold_spec, is_in_date_range_spec, orb_true_iff.
Qed.

Lemma extract_post_data_qualifying submission st :
  qualifies submission →
  extract_post_data submission st =
  match sub_subreddit submission with
  | Return name =>
      (Return (Some (record_of submission name)),
       logged (warning_if (replies_error submission)) st)
  | Raised _ =>
      (Return None,
       logged ((warning_if (replies_error submission)) ++ [Log ERROR]) st)
  end.
Proof.
  intros (Hs & Hd & Hk)%qualifies_checks.
  unfold extract_post_data, try_except, bind. cbv zeta.
  rewrite Hs, Hd, Hk. cbn [negb]. rewrite collect_top_comments_spec.
  unfold lift. destruct (sub_subreddit submission) as [name|e].
  - unfold ret, record_of, replies_field. by destruct (kept_replies submission).
  - unfold logger, emit, ret, logged. simpl. by rewrite <- app_assoc.
Qed.

Lemma extract_post_data_disqualified submission st :
  ¬ qualifies submission → extract_post_data submission st = (Return None, st).
Proof.
  rewrite qualifies_checks. intros Hq.
  unfold extract_post_data, try_except, bind.
  cbv zeta.
  destruct (meets_upvote_threshold _); [|done].
  destruct (is_in_date_range _); [|done]. cbn [negb].
  destruct (matches_keywords (Some _) _ || matches_keywords _ _); [|done].
  by destruct Hq.
Qed.

Lemma qualifies_dec submission : Decision (qualifies submission).
Proof.
  destruct (meets_upvote_threshold (sub_score submission)
            && is_in_date_range (sub_created_utc submission)
            && (matches_keywords (Some (sub_title submission)) (keywords CONFIG)
                || matches_keywords (sub_selftext submission) (keywords CONFIG))) eqn:H.
  - left. apply qualifies_checks.
    apply andb_true_iff in H as [[H1 H2]%andb_true_iff H3]. done.
  - right. intros (H1 & H2 & H3)%qualifies_checks. rewrite H1, H2, H3 in H. done.
Qed.

(** C4: [extract_post_data] returns a record only for a submission whose
    score meets the minimum, whose creation time lies in the date window and
    whose title or body matches a keyword; the checks are made in that order
    and the first one that fails ends the call with no record, nothing else
    having been done. *)
Theorem extract_post_data_checks submission st :
  (∀ post, (extract_post_data submission st).1 = Return (Some post) →
     min_upvotes CONFIG ≤ sub_score submission
     ∧ start_date CONFIG ≤ sub_created_utc submission ≤ end_date CONFIG
     ∧ (matches_keywords (Some (sub_title submission)) (keywords CONFIG) = true
        ∨ matches_keywords (sub_selftext submission) (keywords CONFIG) = true))
  ∧ (sub_score submission < min_upvotes CONFIG →
     extract_post_data submission st = (Return None, st))
  ∧ (¬ (start_date CONFIG ≤ sub_created_utc submission ≤ end_date CONFIG) →
     extract_post_data submission st = (Return None, st))
  ∧ (matches_keywords (Some (sub_title submission)) (keywords CONFIG) = false →
     matches_keywords (sub_selftext submission) (keywords CONFIG) = false →
     extract_post_data submission st = (Return None, st)).
Proof.
  split; [|split; [|split]].
  - intros post H. destruct (qualifies_dec submission) as [Hq|Hq]; [done|].
    rewrite (extract_post_data_disqualified _ _ Hq) in H. done.
  - intros H. apply extract_post_data_disqualified. intros (? & _). lia.
  - intros H. apply extract_post_data_disqualified. by intros (_ & ? & _).
  - intros Ht Hc. apply extract_post_data_disqualified.
    intros (_ & _ & [H|H]); congruence.
Qed.

End extractor_facts.

Section replies.
Context {csv : Type}.
Implicit Types (submission : Submission) (st : state csv).

Lemma dict_get_top_comments submission name :
  dict_get (record_of submission name) "top_comments"
  = Some (VStr (replies_field (kept_replies submission))).
Proof. reflexivity. Qed.

(** Whatever happens while the replies are read, at most five are kept and
    each kept body has at most 500 characters. *)
Lemma kept_replies_bounds submission :
  (length (kept_replies submission) ≤ 5)%nat
  ∧ ∀ s, s ∈ kept_replies submission → (String.length (body s) ≤ 500)%nat.
Proof.
  unfold kept_replies. destruct (sub_comments submission) as [comments|e].
  - split.
    + rewrite length_map. etrans; [apply length_filter|].
      etrans; [apply read_before_length|]. rewrite length_take. lia.
    + intros s (c & -> & _)%list_elem_of_fmap. apply slice_to_length.
  - split; [simpl; lia | by intros s ?%elem_of_nil].
Qed.

(** C6: for a submission that passes the checks and whose replies are read
    without an exception, only the first five replies are considered; a
    considered reply is kept exactly when its body is not empty, is not
    [[deleted]] and matches a keyword; its summary holds the author (or
    [[deleted]]), the body cut to 500 characters, the score and the creation
    time; the [top_comments] field is the JSON text of the kept summaries,
    and the empty string exactly when none is kept.  So at most five entries
    are serialized, each with a body of at most 500 characters. *)
Theorem top_comments_of_first_five submission st
    (comments : list (outcome Comment)) (considered : list Comment) (name : string) :
  qualifies submission →
  sub_subreddit submission = Return name →
  sub_comments submission = Return comments →
  take 5 comments = map Return considered →
  let kept := filter (λ c, keeps c) considered in
  ∃ post,
    extract_post_data submission st = (Return (Some post), st)
    ∧ dict_get post "top_comments" = Some (VStr (replies_field (map summary kept)))
    ∧ (replies_field (map summary kept) = EmptyString ↔ kept = [])
    ∧ (kept ≠ [] → replies_field (map summary kept) = Json.dumps (map summary kept))
    ∧ (∀ c, c ∈ kept ↔
         c ∈ considered
         ∧ ∃ b, com_body c = Some b ∧ b ≠ EmptyString ∧ b ≠ "[deleted]"
                ∧ matches_keywords (Some b) (keywords CONFIG) = true)
    ∧ (∀ c b, c ∈ kept → com_body c = Some b →
         summary c = {| author := default "[deleted]" (com_author c);
                        body := slice_to 500 b;
                        score := com_score c;
                        created_utc := com_created_utc c |})
    ∧ (length considered ≤ 5)%nat
    ∧ (length (map summary kept) ≤ 5)%nat
    ∧ (∀ s, s ∈ map summary kept → (String.length (body s) ≤ 500)%nat).
Proof.
  intros Hq Hname Hcs Hfive kept.
  assert (Hkept : kept_replies submission = map summary kept).
  { unfold kept_replies. by rewrite Hcs, Hfive, read_before_all. }
  assert (Herr : replies_error submission = None).
  { unfold replies_error. by rewrite Hcs, Hfive, first_error_none. }
  assert (Hlen : (length considered ≤ 5)%nat).
  { rewrite <- (length_map Return considered), <- Hfive, length_take. lia. }
  exists (record_of submission name). split; [|split; [|split; [|split; [|split; [|split]]]]].
  - rewrite (extract_post_data_qualifying _ _ Hq), Hname, Herr. simpl.
    by rewrite logged_nil.
  - by rewrite dict_get_top_comments, Hkept.
  - destruct kept; simpl; split; done.
  - destruct kept; simpl; done.
  - intros c. unfold kept. rewrite list_elem_of_filter, Is_true_true, keeps_spec. tauto.
  - intros c b _ Hb. unfold summary. rewrite Hb. by destruct (com_author c).
  - split; [done|]. rewrite <- Hkept. apply kept_replies_bounds.
Qed.

(** C7 (as amended): an exception raised while the replies of a qualifying
    submission are expanded or read is caught and does not disqualify it: a
    record is still returned.  Its [top_comments] field holds the replies kept
    before the exception, so it is empty when the expansion itself raises.
    An exception of the outer extraction makes the call return no record. *)
Theorem reply_errors_do_not_disqualify submission st :
  qualifies submission →
  (∀ name, sub_subreddit submission = Return name →
     ∃ post field,
       extract_post_data submission st
       = (Return (Some post), logged (warning_if (replies_error submission)) st)
       ∧ dict_get post "top_comments" = Some (VStr field)
       ∧ (∀ e, sub_comments submission = Raised e → field = EmptyString)
       ∧ (∀ comments, sub_comments submission = Return comments →
            field = replies_field
                      (map summary (filter (λ c, keeps c) (read_before (take 5 comments))))))
  ∧ (∀ e, sub_subreddit submission = Raised e →
       (extract_post_data submission st).1 = Return None).
Proof.
  intros Hq. split.
  - intros name Hname.
    exists (record_of submission name), (replies_field (kept_replies submission)).
    split; [|split; [|split]].
    + by rewrite (extract_post_data_qualifying _ _ Hq), Hname.
    + apply dict_get_top_comments.
    + intros e He. unfold kept_replies. by rewrite He.
    + intros comments Hcs. unfold kept_replies. by rewrite Hcs.
  - intros e He. by rewrite (extract_post_data_qualifying _ _ Hq), He.
Qed.

End replies.

Lemma twelve_replies_qualifies : qualifies twelve_replies.
Proof. unfold qualifies. simpl. split; [lia|]. split; [lia|]. by left. Qed.

Lemma top_comments_of_first_five_witness :
  ∃ post,
    extract_post_data twelve_replies (initial ∅) = (Return (Some post), initial ∅)
    ∧ dict_get post "top_comments"
      = Some (VStr (Json.dumps (replicate 5 (summary (sample_comment "lootbox!"))))).
Proof.
  destruct (top_comments_of_first_five (csv := DataFrame) twelve_replies (initial ∅)
              (replicate 12 (Return (sample_comment "lootbox!")))
              (replicate 5 (sample_comment "lootbox!")) "csgo"
              twelve_replies_qualifies eq_refl eq_refl eq_refl)
    as (post & Hrun & Hfield & _).
  exists post. split; [exact Hrun | exact Hfield].
Defined.

Lemma extract_post_data_checks_witness :
  min_upvotes CONFIG ≤ 10
  ∧ start_date CONFIG ≤ 1731024000 ≤ end_date CONFIG
  ∧ (matches_keywords (Some "Gambling is bad") (keywords CONFIG) = true
     ∨ matches_keywords (Some EmptyString) (keywords CONFIG) = true).
Proof.
  exact (proj1 (extract_post_data_checks (csv := DataFrame) twelve_replies (initial ∅))
           (record_of twelve_replies "csgo") eq_refl).
Defined.

Lemma broken_second_reply_qualifies : qualifies broken_second_reply.
Proof. unfold qualifies. simpl. split; [lia|]. split; [lia|]. by left. Qed.

Lemma reply_errors_do_not_disqualify_witness :
  ∃ post,
    (extract_post_data broken_second_reply (initial ∅)).1 = Return (Some post)
    ∧ dict_get post "top_comments"
      = Some (VStr (Json.dumps [summary (sample_comment "lootbox!")])).
Proof.
  destruct (proj1 (reply_errors_do_not_disqualify (csv := DataFrame) broken_second_reply
                     (initial ∅) broken_second_reply_qualifies) "csgo" eq_refl)
    as (post & field & Hrun & Hfield & _ & Hkept).
  exists post. split; [by rewrite Hrun|].
  rewrite Hfield. by rewrite (Hkept _ eq_refl).
Defined.

(** C7 (as stated) fails when the exception comes after a reply was kept:
    reading the second reply raises, a record is returned, and its
    [top_comments] field is not empty. *)
Lemma reply_error_keeps_earlier_replies :
  first_error [Return (sample_comment "lootbox!"); Raised (OtherException "reply")]
  = Some (OtherException "reply")
  ∧ ∃ post field,
      (extract_post_data broken_second_reply (initial ∅)).1 = Return (Some post)
      ∧ dict_get post "top_comments" = Some (VStr field)
      ∧ field ≠ EmptyString.
Proof.
  split; [done|].
  exists (record_of broken_second_reply "csgo"),
    (Json.dumps [summary (sample_comment "lootbox!")]).
  done.
Qed.

(** ** Cross-group deduplicator *)

Lemma remove_duplicates_spec (posts : list dict) (seen_ids : gset value) (acc : list dict) :
  Forall (λ p, is_Some (post_id p)) posts →
  remove_duplicates posts seen_ids acc
  = Return (acc ++ filter (unseen seen_ids) (first_occurrences posts)).
Proof.
  intros Hids. revert seen_ids acc.
  induction Hids as [|p rest [v Hv] _ IH]; intros seen_ids acc;
    cbn [remove_duplicates first_occurrences].
  - by rewrite app_nil_r.
  - change (dict_get p "post_id") with (post_id p). rewrite Hv.
    case_bool_decide as Hseen.
    + rewrite IH. f_equal. f_equal.
      rewrite filter_cons_False by (intros H; by apply (H v)).
      rewrite list_filter_filter_l; [done|].
      intros q Hq Heq. by apply (Hq v).
    + rewrite IH, <- app_assoc. f_equal. f_equal. cbn [app].
      rewrite filter_cons_True by (intros w Hw; assert (w = v) as -> by congruence; done).
      f_equal. rewrite list_filter_filter. apply list_filter_iff.
      intros q. unfold unseen. split.
      * intros H. split.
        -- intros w Hw. specialize (H w Hw). set_solver.
        -- intros Heq. specialize (H v Heq). set_solver.
      * intros [H Hne] w Hw. specialize (H w Hw).
        apply not_elem_of_union. split; [|done].
        apply not_elem_of_singleton. congruence.
Qed.

Lemma first_occurrences_sublist (posts : list dict) :
  first_occurrences posts `sublist_of` posts.
Proof.
  induction posts as [|p rest IH]; simpl; [done|].
  apply sublist_skip. etrans; [apply sublist_filter | done].
Qed.

Lemma first_occurrences_NoDup (posts : list dict) :
  NoDup (post_id <$> first_occurrences posts).
Proof.
  induction posts as [|p rest IH]; simpl; [constructor|].
  constructor.
  - intros (q & Heq & [Hne _]%list_elem_of_filter)%list_elem_of_fmap. congruence.
  - eapply sublist_NoDup; [exact IH|]. apply fmap_sublist, sublist_filter.
Qed.

Lemma first_occurrences_ids (posts : list dict) (i : option value) :
  i ∈ post_id <$> first_occurrences posts ↔ i ∈ post_id <$> posts.
Proof.
  induction posts as [|p rest IH]; simpl; [done|].
  rewrite !elem_of_cons, <- IH, !list_elem_of_fmap. split.
  - intros [->|(q & -> & [_ Hq]%list_elem_of_filter)]; [by left|]. right. by exists q.
  - intros [->|(q & -> & Hq)]; [by left|].
    destruct (decide (post_id q = post_id p)) as [Heq|Hne]; [by left|].
    right. exists q. by rewrite list_elem_of_filter.
Qed.

(** C3: on the concatenated per-group records, which may hold a record more
    than once, the deduplication of [main] keeps exactly the first record of
    each [post_id], in the order of encounter: its result is the
    first-occurrence-wins list, which repeats no identity, holds every
    identity of the input and is a sublist of the input. *)
Theorem unique_posts_first_occurrence (all_posts_data : list dict) :
  Forall (λ p, is_Some (post_id p)) all_posts_data →
  ∃ unique_posts,
    unique_posts_of all_posts_data = Return unique_posts
    ∧ unique_posts = first_occurrences all_posts_data
    ∧ NoDup (post_id <$> unique_posts)
    ∧ (∀ i, i ∈ post_id <$> unique_posts ↔ i ∈ post_id <$> all_posts_data)
    ∧ unique_posts `sublist_of` all_posts_data.
Proof.
  intros Hids. exists (first_occurrences all_posts_data).
  split; [|split; [done|split; [|split]]].
  - unfold unique_posts_of. rewrite remove_duplicates_spec by done. simpl.
    f_equal. induction (first_occurrences all_posts_data) as [|q l IH]; [done|].
    rewrite filter_cons_True; [by rewrite IH|]. intros v _. set_solver.
  - apply first_occurrences_NoDup.
  - apply first_occurrences_ids.
  - apply first_occurrences_sublist.
Qed.

Lemma abacb_ids : Forall (λ p, is_Some (post_id p)) abacb.
Proof. repeat constructor; by eexists. Qed.

(** Identities a, b, a, c, b are deduplicated to a, b, c, in that order. *)
Lemma unique_posts_first_occurrence_witness :
  unique_posts_of abacb
  = Return [post_with_id "a" "1"; post_with_id "b" "2"; post_with_id "c" "4"].
Proof.
  destruct (unique_posts_first_occurrence abacb abacb_ids) as (unique & Hrun & Hfirst & _).
  rewrite Hrun, Hfirst. reflexivity.
Defined.

(** ** pandas *)

Lemma ensure_column_keeps (df : DataFrame) (col c : string) :
  c ∈ columns df → c ∈ columns (pd.ensure_column df col).
Proof.
  unfold pd.ensure_column. case_bool_decide; [done|]. simpl. set_solver.
Qed.

Lemma ensure_column_adds (df : DataFrame) (col : string) :
  col ∈ columns (pd.ensure_column df col).
Proof.
  unfold pd.ensure_column. case_bool_decide; [done|]. simpl. set_solver.
Qed.

Lemma ensure_columns_keep (cols : list string) (df : DataFrame) (c : string) :
  c ∈ columns df → c ∈ columns (fold_left pd.ensure_column cols df).
Proof.
  revert df. induction cols as [|col cols IH]; intros df Hc; simpl; [done|].
  by apply IH, ensure_column_keeps.
Qed.

Lemma ensure_columns_all (cols : list string) (df : DataFrame) (c : string) :
  c ∈ cols → c ∈ columns (fold_left pd.ensure_column cols df).
Proof.
  revert df. induction cols as [|col cols IH]; intros df Hc; simpl.
  - by apply elem_of_nil in Hc.
  - apply elem_of_cons in Hc as [->|Hc]; [|by apply IH].
    apply ensure_columns_keep, ensure_column_adds.
Qed.

Lemma select_ok (df : DataFrame) (cols : list string) :
  (∀ c, c ∈ cols → c ∈ columns df) →
  pd.select df cols
  = Return {| columns := cols;
              rows := map (λ r, map (pd.cell_at (columns df) r) cols) (rows df) |}.
Proof.
  intros Hall. unfold pd.select.
  destruct (filter (λ c, c ∉ columns df) cols) as [|missing l] eqn:Hf; [done|].
  assert (missing ∈ filter (λ c, c ∉ columns df) cols) as [Hm Hin]%list_elem_of_filter
    by (rewrite Hf; left).
  destruct Hm. by apply Hall.
Qed.

Lemma select_missing (df : DataFrame) (cols : list string) (c : string) :
  c ∈ cols → c ∉ columns df → ∃ missing, pd.select df cols = Raised (KeyError missing).
Proof.
  intros Hin Hout. unfold pd.select.
  destruct (filter (λ c, c ∉ columns df) cols) as [|missing l] eqn:Hf; [|by eexists].
  assert (c ∈ filter (λ c, c ∉ columns df) cols) as Hc by by apply list_elem_of_filter.
  rewrite Hf in Hc. by apply elem_of_nil in Hc.
Qed.

Lemma select_ensured (df : DataFrame) :
  pd.select (fold_left pd.ensure_column column_order df) column_order
  = Return {| columns := column_order;
              rows := map (λ r, map (pd.cell_at
                                       (columns (fold_left pd.ensure_column column_order df)) r)
                                    column_order)
                          (rows (fold_left pd.ensure_column column_order df)) |}.
Proof. apply select_ok. intros c Hc. by apply ensure_columns_all. Qed.

Lemma index_of_Some (cols : list string) (c : string) :
  c ∈ cols → ∃ i, pd.index_of c cols = Some i ∧ cols !! i = Some c.
Proof.
  induction cols as [|d cols IH]; intros Hc; simpl.
  - by apply elem_of_nil in Hc.
  - destruct (String.eqb_spec d c) as [->|Hne]; [by exists O|].
    apply elem_of_cons in Hc as [->|Hc]; [done|].
    destruct (IH Hc) as (i & -> & Hi). by exists (S i).
Qed.

Lemma index_of_NoDup (cols : list string) (i : nat) (c : string) :
  NoDup cols → cols !! i = Some c → pd.index_of c cols = Some i.
Proof.
  intros Hnd. revert i. induction Hnd as [|d cols Hd _ IH]; intros i Hi; [done|].
  simpl. destruct i as [|i]; simpl in Hi.
  - injection Hi as ->. by rewrite String.eqb_refl.
  - destruct (String.eqb_spec d c) as [->|Hne].
    + destruct Hd. by eapply list_elem_of_lookup_2.
    + by rewrite (IH i Hi).
Qed.

Lemma cell_at_map (f : string → cell) (cols : list string) (c : string) :
  c ∈ cols → pd.cell_at cols (map f cols) c = f c.
Proof.
  intros (i & Hi & Hc)%index_of_Some. unfold pd.cell_at. rewrite Hi.
  change (map f cols) with (f <$> cols). by rewrite list_lookup_fmap, Hc.
Qed.

(** Laying a row out under its own columns leaves it as it is. *)
Lemma realign_id (cols : list string) (r : list cell) :
  NoDup cols → length r = length cols → map (pd.cell_at cols r) cols = r.
Proof.
  intros Hnd Hlen. apply list_eq. intros i.
  change (map (pd.cell_at cols r) cols) with (pd.cell_at cols r <$> cols).
  rewrite list_lookup_fmap. destruct (cols !! i) as [c|] eqn:Hc; simpl.
  - unfold pd.cell_at. rewrite (index_of_NoDup _ _ _ Hnd Hc).
    destruct (r !! i) as [x|] eqn:Hr; [done|].
    apply lookup_ge_None in Hr. apply lookup_lt_Some in Hc. unfold cell in *. lia.
  - symmetry. apply lookup_ge_None. apply lookup_ge_None in Hc. unfold cell in *. lia.
Qed.

Lemma column_order_NoDup : NoDup column_order.
Proof. apply (bool_decide_unpack _). by vm_compute. Qed.

Lemma concat_same_columns (a b : DataFrame) :
  dataset a → dataset b →
  pd.concat a b = {| columns := column_order; rows := rows a ++ rows b |}.
Proof.
  intros [Ha Hra] [Hb Hrb]. unfold pd.concat. rewrite Ha, Hb.
  replace (filter (λ c, c ∉ column_order) column_order) with (@nil string)
    by (symmetry; apply (bool_decide_unpack _); by vm_compute).
  rewrite app_nil_r. f_equal. f_equal.
  - rewrite <- (map_id (rows a)) at 2. apply map_ext_Forall.
    eapply Forall_impl; [exact Hra|]. intros r Hr. simpl in Hr.
    by apply realign_id; [apply column_order_NoDup|].
  - rewrite <- (map_id (rows b)) at 2. apply map_ext_Forall.
    eapply Forall_impl; [exact Hrb|]. intros r Hr. simpl in Hr.
    by apply realign_id; [apply column_order_NoDup|].
Qed.

Lemma first_seen_elem (seen keys : list string) (k : string) :
  k ∈ pd.first_seen seen keys ↔ k ∈ keys ∧ k ∉ seen.
Proof.
  revert seen. induction keys as [|j keys IH]; intros seen; simpl.
  - split; [by intros ?%elem_of_nil | by intros [?%elem_of_nil _]].
  - case_bool_decide as Hj.
    + rewrite IH, elem_of_cons. split; [tauto|]. intros [[->|?] ?]; tauto.
    + rewrite !elem_of_cons, IH, elem_of_app, list_elem_of_singleton. split.
      * intros [->|[? ?]]; [tauto|]. split; [tauto|]. tauto.
      * intros [[->|?] ?]; [tauto|]. destruct (decide (k = j)); tauto.
Qed.

Lemma dict_get_key (d : dict) (k : string) :
  is_Some (dict_get d k) → k ∈ dict_keys d.
Proof.
  induction d as [|[j v] d IH]; simpl; [by intros [? ?]|].
  destruct (String.eqb_spec j k) as [->|Hne]; [left|right; by apply IH].
Qed.

Lemma DataFrame_of_columns (posts : list dict) (p : dict) (c : string) :
  p ∈ posts → is_Some (dict_get p c) → c ∈ columns (pd.DataFrame_of posts).
Proof.
  intros Hp Hc. simpl. apply first_seen_elem. split; [|by intros ?%elem_of_nil].
  apply list_elem_of_In, in_concat. exists (dict_keys p).
  split; apply list_elem_of_In; [|by apply dict_get_key].
  change (map dict_keys posts) with (dict_keys <$> posts).
  by apply list_elem_of_fmap_2.
Qed.

(** The frame of a non-empty batch of normalized records, under the fixed
    schema: one row per record, its values in the order of the columns. *)
Lemma select_normalized (posts : list dict) :
  posts ≠ [] → Forall normalized posts →
  pd.select (pd.DataFrame_of posts) column_order
  = Return {| columns := column_order; rows := map row_of posts |}.
Proof.
  intros Hne Hnorm.
  assert (Hcols : ∀ c, c ∈ column_order → c ∈ columns (pd.DataFrame_of posts)).
  { intros c Hc. destruct posts as [|p posts]; [done|].
    apply (DataFrame_of_columns _ p); [left|].
    apply Forall_cons in Hnorm as [Hp _]. by apply Hp. }
  rewrite select_ok by done. f_equal. f_equal.
  unfold pd.DataFrame_of at 2. cbn [rows]. rewrite map_map.
  apply map_ext. intros d. unfold row_of. apply map_ext_in.
  intros c Hc%list_elem_of_In. by apply cell_at_map, Hcols.
Qed.

Lemma row_of_length (post : dict) : length (row_of post) = length column_order.
Proof. unfold row_of. by rewrite length_map. Qed.

(** ** Incremental persister *)

Lemma new_posts_of_spec (posts : list dict) (ids : gset string) :
  Forall (λ p, is_Some (post_id p)) posts →
  new_posts_of posts ids = Return (filter (λ p, post_id_str p ∉ ids) posts).
Proof.
  induction 1 as [|p rest [v Hv] _ IH]; simpl; [done|].
  change (dict_get p "post_id") with (post_id p). rewrite Hv, IH.
  assert (Hs : post_id_str p = str v) by (unfold post_id_str; by rewrite Hv).
  rewrite filter_cons, Hs.
  case_bool_decide; [by rewrite decide_False by tauto | by rewrite decide_True].
Qed.

Lemma normalized_post_id (post : dict) : normalized post → is_Some (post_id post).
Proof. intros H. apply H. by left. Qed.

Section persister_facts.
Context {csv : Type} `{!PandasCsv csv}.
Implicit Types (st : state csv) (posts : list dict) (filename : option string).

Lemma save_to_csv_create (p : dict) posts filename st :
  fs st !! default (output_file CONFIG) filename = None →
  save_to_csv (p :: posts) filename st
  = (Return tt,
     written (default (output_file CONFIG) filename)
       (to_csv (created_frame (p :: posts))) [Log INFO; Log INFO] st).
Proof.
  intros Hfile. unfold save_to_csv, try_except, bind. cbv zeta.
  unfold lift at 1. rewrite select_ensured.
  unfold path_exists. rewrite Hfile.
  rewrite bool_decide_eq_false_2 by (by intros [? ?]).
  unfold logger, df_to_csv, write_file, emit, written, created_frame.
  cbn [events reddit fs]. by rewrite <- app_assoc.
Qed.

Lemma save_to_csv_existing (p : dict) posts filename st
    (content : csv) (existing : DataFrame) (ids : list string) :
  fs st !! default (output_file CONFIG) filename = Some content →
  read_csv content = Return existing →
  pd.column_as_str existing "post_id" = Return ids →
  save_to_csv (p :: posts) filename st
  = match new_posts_of (p :: posts) (list_to_set ids) with
    | Raised e => (Raised e, logged [Log ERROR] st)
    | Return [] => (Return tt, logged [Log INFO] st)
    | Return (n :: ns) =>
        match pd.select (pd.DataFrame_of (n :: ns)) column_order with
        | Raised e => (Raised e, logged [Log ERROR] st)
        | Return new_df =>
            (Return tt,
             written (default (output_file CONFIG) filename)
               (to_csv (pd.concat existing new_df)) [Log INFO; Log INFO] st)
        end
    end.
Proof.
  intros Hfile Hread Hids. unfold save_to_csv, try_except, bind. cbv zeta.
  unfold lift at 1. rewrite select_ensured.
  unfold path_exists. rewrite Hfile.
  rewrite bool_decide_eq_true_2 by (by eexists).
  unfold pd_read_csv. rewrite Hfile, Hread.
  unfold lift at 1. rewrite Hids.
  unfold lift at 1. destruct (new_posts_of (p :: posts) (list_to_set ids)) as [[|n ns]|e].
  - reflexivity.
  - unfold lift. destruct (pd.select (pd.DataFrame_of (n :: ns)) column_order) as [new_df|e].
    + unfold logger, df_to_csv, write_file, emit, written.
      cbn [events reddit fs]. by rewrite <- app_assoc.
    + reflexivity.
  - reflexivity.
Qed.

(** C10: called with an empty list of records, [save_to_csv] returns at once
    and touches no file: a file that does not exist stays absent and an
    existing dataset stays as it is. *)
Theorem save_to_csv_nothing filename st :
  save_to_csv [] filename st = (Return tt, logged [Log WARNING] st)
  ∧ fs (save_to_csv [] filename st).2 = fs st.
Proof. split; reflexivity. Qed.


Lemma new_posts_of_present posts (ids : gset string) :
  (∀ p, p ∈ posts → ∃ v, post_id p = Some v ∧ str v ∈ ids) →
  new_posts_of posts ids = Return [].
Proof.
  intros Hall. rewrite new_posts_of_spec.
  - f_equal. induction posts as [|p rest IH]; [done|].
    destruct (Hall p) as (v & Hv & Hin); [left|].
    rewrite filter_cons_False.
    + apply IH. intros q Hq. apply Hall. by right.
    + unfold post_id_str. rewrite Hv. simpl. tauto.
  - apply Forall_forall. intros p Hp. destruct (Hall p Hp) as (v & Hv & _). by eexists.
Qed.

(** C2: once a call of [save_to_csv] with the records [posts] has left a
    dataset that holds the identity of each of them, a second call with the
    same records finds no new record, and leaves the file, hence its number
    of rows, as it is. *)
Theorem save_to_csv_idempotent posts filename st0
    (content : csv) (df : DataFrame) (ids : list string) :
  let name := default (output_file CONFIG) filename in
  let st1 := (save_to_csv posts filename st0).2 in
  fs st1 !! name = Some content →
  read_csv content = Return df →
  pd.column_as_str df "post_id" = Return ids →
  (∀ p, p ∈ posts → ∃ v, post_id p = Some v ∧ str v ∈ ids) →
  new_posts_of posts (list_to_set ids) = Return []
  ∧ (save_to_csv posts filename st1).1 = Return tt
  ∧ fs (save_to_csv posts filename st1).2 = fs st1
  ∧ fs (save_to_csv posts filename st1).2 !! name = Some content.
Proof.
  intros name st1 Hfile Hread Hids Hall.
  assert (Hnone : new_posts_of posts (list_to_set ids) = Return []).
  { apply new_posts_of_present. intros p Hp. destruct (Hall p Hp) as (v & Hv & Hin).
    exists v. split; [done|]. by apply elem_of_list_to_set. }
  split; [done|]. destruct posts as [|p posts].
  - by repeat split.
  - rewrite (save_to_csv_existing _ _ _ _ content df ids Hfile Hread Hids), Hnone.
    by repeat split.
Qed.

Lemma dataset_post_id_column (existing : DataFrame) :
  dataset existing →
  pd.column_as_str existing "post_id" = Return (existing_ids_of existing).
Proof.
  intros [Hcols _]. unfold pd.column_as_str, existing_ids_of.
  rewrite bool_decide_eq_true_2; [done|]. rewrite Hcols. by left.
Qed.

(** C1: called with a non-empty list of records when a dataset file exists,
    [save_to_csv] leaves in the file the existing rows, unchanged and in
    their order, followed by the rows of those input records whose
    [post_id], as a string, is not among the identities of the existing rows,
    in input order; when every input record is already there the file is
    left as it is. *)
Theorem save_to_csv_merge posts filename st (content : csv) (existing : DataFrame) :
  let name := default (output_file CONFIG) filename in
  let new_posts := filter (λ p, post_id_str p ∉ existing_ids_of existing) posts in
  posts ≠ [] →
  Forall normalized posts →
  fs st !! name = Some content →
  read_csv content = Return existing →
  dataset existing →
  (save_to_csv posts filename st).1 = Return tt
  ∧ fs (save_to_csv posts filename st).2
    = match new_posts with
      | [] => fs st
      | _ :: _ =>
          <[name := to_csv {| columns := column_order;
                              rows := rows existing ++ map row_of new_posts |}]> (fs st)
      end.
Proof.
  intros name new_posts Hne Hnorm Hfile Hread Hds.
  destruct posts as [|p posts]; [done|].
  rewrite (save_to_csv_existing _ _ _ _ content existing _ Hfile Hread
             (dataset_post_id_column _ Hds)).
  rewrite new_posts_of_spec
    by (eapply Forall_impl; [exact Hnorm | apply normalized_post_id]).
  assert (Hsame : filter (λ q, post_id_str q ∉ (list_to_set (existing_ids_of existing) : gset string))
                    (p :: posts) = new_posts).
  { apply list_filter_iff. intros q. by rewrite elem_of_list_to_set. }
  rewrite Hsame. destruct new_posts as [|n ns] eqn:Hnew; [done|].
  assert (Hnn : Forall normalized (n :: ns)).
  { rewrite <- Hnew. apply Forall_forall. intros q [_ Hq]%list_elem_of_filter.
    by apply (proj1 (Forall_forall _ _) Hnorm). }
  rewrite select_normalized by done.
  rewrite concat_same_columns; [done | done |].
  split; [done|]. apply Forall_forall. intros r (q & -> & _)%list_elem_of_fmap.
  apply row_of_length.
Qed.

End persister_facts.

Lemma normalized_post_with_id (i ttl : string) : normalized (post_with_id i ttl).
Proof.
  intros col Hcol. apply list_elem_of_In in Hcol. simpl in Hcol.
  repeat (destruct Hcol as [<-|Hcol]; [by eexists|]). done.
Qed.

Lemma batch_yz_normalized : Forall normalized batch_yz.
Proof. repeat constructor; apply normalized_post_with_id. Qed.

Lemma dataset_xy_dataset : dataset dataset_xy.
Proof. split; [reflexivity|]. repeat constructor. Qed.

(** A dataset with identities x, y merged with a batch with identities y, z
    holds x, y, z: the row of y is the original one and the row of z comes
    last. *)
Lemma save_to_csv_merge_witness :
  fs (save_to_csv batch_yz None disk_xy).2 !! output_file CONFIG
  = Some {| columns := column_order;
            rows := [row_of (post_with_id "x" "t1"); row_of (post_with_id "y" "t2");
                     row_of (post_with_id "z" "t4")] |}.
Proof.
  assert (Hne : batch_yz ≠ []) by discriminate.
  assert (Hfile : fs disk_xy !! default (output_file CONFIG) None = Some dataset_xy)
    by (vm_compute; reflexivity).
  assert (Hread : read_csv dataset_xy = Return dataset_xy) by reflexivity.
  destruct (save_to_csv_merge batch_yz None disk_xy dataset_xy dataset_xy
              Hne batch_yz_normalized Hfile Hread dataset_xy_dataset) as [_ Hfs].
  rewrite Hfs. vm_compute. reflexivity.
Defined.

(** Saving the records x, y twice: the second call changes nothing. *)
Lemma save_to_csv_idempotent_witness :
  fs (save_to_csv batch_xy None (save_to_csv batch_xy None (initial ∅)).2).2
  = fs (save_to_csv batch_xy None (initial ∅)).2.
Proof.
  pose proof (save_to_csv_idempotent batch_xy None (initial ∅) dataset_xy dataset_xy
                ["x"; "y"]) as H.
  cbv zeta in H. destruct H as (_ & _ & H & _).
  - vm_compute. reflexivity.
  - reflexivity.
  - vm_compute. reflexivity.
  - intros p Hp. apply elem_of_cons in Hp as [->|Hp].
    + exists (VStr "x"). split; [reflexivity | left].
    + apply elem_of_cons in Hp as [->|Hp]; [|by apply elem_of_nil in Hp].
      exists (VStr "y"). split; [reflexivity | right; left].
  - exact H.
Defined.

(** C8: appending a record that has an identity and no other column to an
    existing dataset raises a KeyError and writes nothing, although the same
    record, written to a new file, gets every missing column filled with an
    empty value. *)
Theorem append_missing_column_raises :
  save_to_csv [bare_z] None disk_xy = (Raised (KeyError "title"), logged [Log ERROR] disk_xy)
  ∧ fs (save_to_csv [bare_z] None disk_xy).2 = fs disk_xy
  ∧ fs (save_to_csv [bare_z] None (initial ∅)).2 !! output_file CONFIG
    = Some {| columns := column_order;
              rows := [Some (VStr "z") :: replicate 11 (Some (VStr EmptyString))] |}.
Proof. split; [|split]; vm_compute; reflexivity. Qed.

(** ** The schema on the two write paths *)

Lemma first_seen_NoDup (seen keys : list string) :
  NoDup (pd.first_seen seen keys).
Proof.
  revert seen. induction keys as [|k keys IH]; intros seen; simpl; [constructor|].
  case_bool_decide; [apply IH|]. constructor; [|apply IH].
  rewrite first_seen_elem. intros [_ Hk]. apply Hk, elem_of_app. right. by left.
Qed.

(** The fill loop appends the columns the frame lacks, in their order, and
    an empty string under each of them in every row. *)
Lemma ensure_columns_spec (cols : list string) (df : DataFrame) :
  fold_left pd.ensure_column cols df
  = {| columns := columns df ++ pd.first_seen (columns df) cols;
       rows := map (λ r, r ++ replicate (length (pd.first_seen (columns df) cols))
                                 (Some (VStr EmptyString)))
                   (rows df) |}.
Proof.
  revert df. induction cols as [|c cols IH]; intros [cs rs]; simpl.
  - rewrite app_nil_r. f_equal. rewrite <- (map_id rs) at 1.
    apply map_ext. intros r. by rewrite app_nil_r.
  - rewrite IH. unfold pd.ensure_column. simpl. case_bool_decide; [done|].
    simpl. rewrite <- app_assoc. f_equal. rewrite map_map.
    apply map_ext. intros r. by rewrite <- app_assoc.
Qed.

Lemma index_of_app_l (c : string) (cols more : list string) :
  c ∈ cols → pd.index_of c (cols ++ more) = pd.index_of c cols.
Proof.
  induction cols as [|d cols IH]; intros Hc; simpl.
  - by apply elem_of_nil in Hc.
  - destruct (String.eqb_spec d c) as [->|Hne]; [done|].
    apply elem_of_cons in Hc as [->|Hc]; [done|]. by rewrite IH.
Qed.

Lemma index_of_app_r (c : string) (cols more : list string) :
  c ∉ cols → pd.index_of c (cols ++ more) = (λ i, length cols + i)%nat <$> pd.index_of c more.
Proof.
  induction cols as [|d cols IH]; intros Hc; simpl.
  - by destruct (pd.index_of c more).
  - destruct (String.eqb_spec d c) as [->|Hne]; [destruct Hc; left|].
    rewrite IH by (intros ?; apply Hc; by right).
    by destruct (pd.index_of c more).
Qed.

(** A cell of the frame written on the create path: the value of the record
    when some record of the batch has the column, the empty string when none
    has it (NaN when only other records have it). *)
Lemma created_frame_rows (posts : list dict) :
  rows (created_frame posts)
  = map (λ d, map (λ c, if bool_decide (c ∈ columns (pd.DataFrame_of posts))
                        then dict_get d c else Some (VStr EmptyString))
                  column_order)
        posts.
Proof.
  unfold created_frame. cbv zeta. rewrite ensure_columns_spec. cbn [rows columns].
  set (cols0 := columns (pd.DataFrame_of posts)).
  set (added := pd.first_seen cols0 column_order).
  unfold pd.DataFrame_of. cbn [rows].
  change (pd.first_seen [] (concat (map dict_keys posts))) with cols0.
  rewrite !map_map.
  apply map_ext. intros d. apply map_ext_in. intros c Hc%list_elem_of_In.
  unfold pd.cell_at. case_bool_decide as Hin.
  - rewrite index_of_app_l by done.
    destruct (index_of_Some cols0 c Hin) as (i & -> & Hi).
    rewrite lookup_app_l
      by (rewrite length_map; by eapply lookup_lt_Some).
    change (map (dict_get d) cols0) with (dict_get d <$> cols0).
    by rewrite list_lookup_fmap, Hi.
  - rewrite index_of_app_r by done.
    assert (Hadd : c ∈ added) by (by apply first_seen_elem).
    destruct (index_of_Some added c Hadd) as (j & -> & Hj). simpl.
    rewrite lookup_app_r by (rewrite length_map; lia).
    rewrite length_map. replace (length cols0 + j - length cols0)%nat with j by lia.
    rewrite lookup_replicate_2; [done|]. by eapply lookup_lt_Some.
Qed.

Lemma dict_keys_get (d : dict) (k : string) :
  k ∈ dict_keys d → is_Some (dict_get d k).
Proof.
  induction d as [|[j v] d IH]; simpl; [by intros ?%elem_of_nil|].
  destruct (String.eqb_spec j k) as [->|Hne]; [by eexists|].
  intros [->|Hk]%elem_of_cons; [done | by apply IH].
Qed.

Lemma DataFrame_of_column_inv (posts : list dict) (c : string) :
  c ∈ columns (pd.DataFrame_of posts) → ∃ p, p ∈ posts ∧ is_Some (dict_get p c).
Proof.
  simpl. intros [Hc _]%first_seen_elem.
  apply list_elem_of_In, in_concat in Hc as (ks & Hks & Hc).
  apply in_map_iff in Hks as (p & <- & Hp).
  exists p. split; [by apply list_elem_of_In|]. by apply dict_keys_get, list_elem_of_In.
Qed.

Section schema.
Context {csv : Type} `{!PandasCsv csv}.
Implicit Types (st : state csv) (posts : list dict) (filename : option string).

(** X2: on the create path every write carries the fixed schema: the twelve
    columns in their order, one row per record, and the empty string under a
    column that no record has. *)
Lemma save_to_csv_create_schema (p : dict) posts filename st :
  fs st !! default (output_file CONFIG) filename = None →
  ∃ df,
    fs (save_to_csv (p :: posts) filename st).2 !! default (output_file CONFIG) filename
    = Some (to_csv df)
    ∧ columns df = column_order
    ∧ rows df = map (λ d, map (λ c, if bool_decide (c ∈ columns (pd.DataFrame_of (p :: posts)))
                                    then dict_get d c else Some (VStr EmptyString))
                              column_order)
                    (p :: posts)
    ∧ (∀ c, c ∈ column_order → (∀ q, q ∈ p :: posts → dict_get q c = None) →
         ∀ r, r ∈ rows df → pd.cell_at column_order r c = Some (VStr EmptyString)).
Proof.
  intros Hfile. exists (created_frame (p :: posts)).
  rewrite (save_to_csv_create _ _ _ _ Hfile). unfold written. cbn [snd fs].
  rewrite lookup_insert_eq. split; [done|]. split; [done|].
  split; [apply created_frame_rows|].
  intros c Hc Hnone r. rewrite created_frame_rows.
  intros (d & -> & _)%list_elem_of_fmap.
  rewrite (cell_at_map (λ c, if bool_decide (c ∈ columns (pd.DataFrame_of (p :: posts)))
                             then dict_get d c else Some (VStr EmptyString))) by done.
  rewrite bool_decide_eq_false_2; [done|].
  intros (q & Hq & [v Hv])%DataFrame_of_column_inv. by rewrite (Hnone q Hq) in Hv.
Qed.

(** X3: on the append path a fixed column that none of the new records has is
    not filled: the call raises a KeyError and the file stays as it was. *)
Lemma save_to_csv_append_missing_column (p : dict) posts filename st
    (content : csv) (existing : DataFrame) (ids : list string)
    (new_posts : list dict) (col : string) :
  fs st !! default (output_file CONFIG) filename = Some content →
  read_csv content = Return existing →
  pd.column_as_str existing "post_id" = Return ids →
  new_posts_of (p :: posts) (list_to_set ids) = Return new_posts →
  new_posts ≠ [] →
  col ∈ column_order →
  (∀ q, q ∈ new_posts → dict_get q col = None) →
  ∃ missing,
    save_to_csv (p :: posts) filename st
    = (Raised (KeyError missing), logged [Log ERROR] st).
Proof.
  intros Hfile Hread Hids Hnew Hne Hcol Hnone.
  rewrite (save_to_csv_existing _ _ _ _ content existing ids Hfile Hread Hids), Hnew.
  destruct new_posts as [|n ns]; [done|].
  destruct (select_missing (pd.DataFrame_of (n :: ns)) column_order col Hcol)
    as [missing ->]; [|by exists missing].
  intros (q & Hq & [v Hv])%DataFrame_of_column_inv. by rewrite (Hnone q Hq) in Hv.
Qed.

End schema.

(** Every record [extract_post_data] returns has the twelve columns. *)
Lemma extract_value_normalized (submission : Submission) (post : dict) :
  extract_value submission = Some post → normalized post.
Proof.
  unfold extract_value. destruct (passes submission); [|done].
  destruct (sub_subreddit submission) as [name|e]; [|done].
  intros [= <-] col Hcol. apply list_elem_of_In in Hcol. simpl in Hcol.
  repeat (destruct Hcol as [<-|Hcol]; [by eexists|]). done.
Qed.

(** ** Transport and query aggregator *)

Section transport_facts.
Context {csv : Type}.
Implicit Types (st : state csv).

Lemma on_failure_spec (attempt : nat) (e : exn) st :
  on_failure attempt e st = (Return tt, logged (failure_events attempt e) st).
Proof.
  destruct e as [msg|msg|k| |msg]; cbn [on_failure failure_events];
    try destruct (is_rate_limit msg);
    unfold bind, logger, sleep, emit, ret, logged; cbn [events reddit fs];
    rewrite <- ?app_assoc; reflexivity.
Qed.

Lemma attempts_spec {A} (func : nat → outcome A) (remaining attempt : nat)
    (last_exception : option exn) st :
  attempts func remaining attempt last_exception st
  = (api_result func remaining attempt last_exception,
     logged (api_events func remaining attempt) st).
Proof.
  revert attempt last_exception st.
  induction remaining as [|k IH]; intros attempt last st.
  - cbn [attempts api_result api_events]. unfold bind, logger, emit, raise.
    by destruct last.
  - cbn [attempts api_result api_events].
    unfold bind at 1, rate_limit_delay, sleep, emit.
    destruct (func attempt) as [result|e].
    + reflexivity.
    + unfold bind. rewrite on_failure_spec, IH, !logged_logged.
      unfold logged. cbn [events reddit fs]. by rewrite <- !app_assoc.
Qed.

Lemma api_all_fail {A} (func : nat → outcome A) (e : nat → exn)
    (remaining attempt : nat) (last_exception : option exn) :
  (∀ i, (attempt ≤ i < attempt + remaining)%nat → func i = Raised (e i)) →
  api_result func remaining attempt last_exception
  = Raised (match remaining with
            | O => default TypeError last_exception
            | S k => e (attempt + k)%nat
            end)
  ∧ api_events func remaining attempt
    = concat (map (λ i, Sleep (request_delay CONFIG) :: failure_events i (e i))
                  (seq attempt remaining)) ++ [Log ERROR].
Proof.
  revert attempt last_exception.
  induction remaining as [|k IH]; intros attempt last Hfail; [done|].
  cbn [api_result api_events seq map concat].
  rewrite (Hfail attempt) by lia.
  destruct (IH (S attempt) (Some (e attempt))) as [Hr He].
  { intros i Hi. apply Hfail. lia. }
  rewrite Hr, He. split.
  - f_equal. destruct k as [|k]; simpl.
    + f_equal. lia.
    + f_equal. lia.
  - simpl. by rewrite <- !app_assoc.
Qed.

Lemma api_result_success {A} (func : nat → outcome A) (e : nat → exn)
    (k remaining attempt : nat) (last_exception : option exn) (result : A) :
  (∀ i, (attempt ≤ i < attempt + k)%nat → func i = Raised (e i)) →
  func (attempt + k)%nat = Return result →
  (k < remaining)%nat →
  api_result func remaining attempt last_exception = Return result.
Proof.
  revert remaining attempt last_exception.
  induction k as [|k IH]; intros remaining attempt last Hfail Hok Hlt;
    (destruct remaining as [|n]; [lia|]); cbn [api_result].
  - rewrite Nat.add_0_r in Hok. by rewrite Hok.
  - rewrite (Hfail attempt) by lia. apply IH; [| |lia].
    + intros i Hi. apply Hfail. lia.
    + by replace (S attempt + k)%nat with (attempt + S k)%nat by lia.
Qed.

Lemma passes_qualifies (submission : Submission) :
  passes submission = true ↔ qualifies submission.
Proof.
  rewrite qualifies_checks. unfold passes. rewrite !andb_true_iff. tauto.
Qed.

Lemma extract_post_data_value (submission : Submission) st :
  ∃ evs, extract_post_data submission st = (Return (extract_value submission), logged evs st).
Proof.
  unfold extract_value. destruct (passes submission) eqn:Hp.
  - apply passes_qualifies in Hp. rewrite (extract_post_data_qualifying _ _ Hp).
    destruct (sub_subreddit submission); by eexists.
  - exists []. rewrite logged_nil. apply extract_post_data_disqualified.
    rewrite <- passes_qualifies. congruence.
Qed.

Lemma each_submission_spec (search_results : list Submission)
    (all_posts : gset string) (posts_data : list dict) st :
  ∃ all_posts' evs,
    each_submission search_results all_posts posts_data st
    = (Return (all_posts', posts_data ++ omap extract_value search_results),
       logged evs st).
Proof.
  revert all_posts posts_data st.
  induction search_results as [|s rest IH]; intros all_posts posts_data st.
  - exists all_posts, []. cbn [each_submission omap]. unfold ret.
    by rewrite app_nil_r, logged_nil.
  - cbn [each_submission]. unfold bind at 1.
    destruct (extract_post_data_value s st) as [evs ->].
    change (omap extract_value (s :: rest))
      with (match extract_value s with
            | Some y => y :: omap extract_value rest
            | None => omap extract_value rest
            end).
    destruct (extract_value s) as [post|].
    + unfold bind, logger, emit.
      destruct (IH ({[sub_id s]} ∪ all_posts) (posts_data ++ [post])
                  {| events := events (logged evs st) ++ [Log INFO];
                     reddit := reddit (logged evs st); fs := fs (logged evs st) |})
        as (ap & evs' & ->).
      exists ap, (evs ++ [Log INFO] ++ evs'). f_equal.
      * by rewrite <- app_assoc.
      * unfold logged. cbn [events reddit fs]. by rewrite <- !app_assoc.
    + destruct (IH ({[sub_id s]} ∪ all_posts) posts_data (logged evs st))
        as (ap & evs' & ->).
      exists ap, (evs ++ evs'). by rewrite logged_logged.
Qed.

(** One round of the keyword loop, whatever the search does. *)
Lemma each_keyword_step (sr : Subreddit) (limit : Z) (keyword : string)
    (rest : list string) (all_posts : gset string) (posts_data : list dict) st :
  ∃ all_posts' evs,
    each_keyword sr limit (keyword :: rest) all_posts posts_data st
    = each_keyword sr limit rest all_posts'
        (posts_data ++ keyword_posts sr limit keyword) (logged evs st)
    ∧ (∀ e, api_result (search sr keyword limit) (max_retries CONFIG) 0%nat None = Raised e →
         all_posts' = all_posts
         ∧ evs = [Log INFO]
                 ++ api_events (search sr keyword limit) (max_retries CONFIG) 0%nat
                 ++ [Log WARNING]).
Proof.
  cbn [each_keyword]. unfold bind at 1, try_except, bind at 1, logger at 1, emit.
  unfold bind at 1, safe_api_call. rewrite attempts_spec. unfold keyword_posts.
  destruct (api_result (search sr keyword limit) (max_retries CONFIG) 0%nat None)
    as [results|e].
  - destruct (each_submission_spec results all_posts posts_data
                (logged (api_events (search sr keyword limit) (max_retries CONFIG) 0%nat)
                   {| events := events st ++ [Log INFO]; reddit := reddit st; fs := fs st |}))
      as (ap & evs & ->).
    exists ap, ([Log INFO] ++ api_events (search sr keyword limit) (max_retries CONFIG) 0%nat
                ++ evs).
    split; [|done]. f_equal. unfold logged. cbn [events reddit fs].
    by rewrite <- !app_assoc.
  - exists all_posts,
      ([Log INFO] ++ api_events (search sr keyword limit) (max_retries CONFIG) 0%nat
       ++ [Log WARNING]).
    split.
    + rewrite app_nil_r. unfold logger, bind, emit, ret, logged. cbn [events reddit fs].
      by rewrite <- !app_assoc.
    + by intros e' _.
Qed.

Lemma each_keyword_spec (sr : Subreddit) (limit : Z) (kws : list string)
    (all_posts : gset string) (posts_data : list dict) st :
  ∃ all_posts' evs,
    each_keyword sr limit kws all_posts posts_data st
    = (Return (all_posts', posts_data ++ concat (map (keyword_posts sr limit) kws)),
       logged evs st).
Proof.
  revert all_posts posts_data st.
  induction kws as [|keyword rest IH]; intros all_posts posts_data st.
  - exists all_posts, []. cbn [each_keyword map concat]. unfold ret.
    by rewrite app_nil_r, logged_nil.
  - destruct (each_keyword_step sr limit keyword rest all_posts posts_data st)
      as (ap & evs & -> & _).
    destruct (IH ap (posts_data ++ keyword_posts sr limit keyword) (logged evs st))
      as (ap' & evs' & ->).
    exists ap', (evs ++ evs'). cbn [map concat].
    by rewrite logged_logged, <- app_assoc.
Qed.

Lemma search_subreddit_spec (subreddit_name : string) (limit : Z) st :
  ∃ evs,
    search_subreddit subreddit_name limit st
    = (Return (match reddit st with
               | Some r => subreddit_posts r subreddit_name limit
               | None => []
               end),
       logged evs st).
Proof.
  unfold search_subreddit, bind at 1, get_reddit.
  destruct (reddit st) as [r|] eqn:Hr.
  - unfold try_except, bind at 1, logger at 1, emit, bind at 1, lift, subreddit_posts.
    destruct (subreddit r subreddit_name) as [sr|e].
    + unfold bind at 1.
      destruct (each_keyword_spec sr limit (keywords CONFIG) ∅ []
                  {| events := events st ++ [Log INFO]; reddit := reddit st; fs := fs st |})
        as (ap & evs & ->).
      exists ([Log INFO] ++ evs ++ [Log INFO]).
      unfold bind, logger, emit, ret, logged. cbn [events reddit fs app].
      by rewrite <- !app_assoc.
    + exists [Log INFO; Log ERROR].
      unfold bind, logger, emit, ret, logged. cbn [events reddit fs].
      by rewrite <- !app_assoc.
  - exists [Log ERROR]. reflexivity.
Qed.

End transport_facts.

Section containment.
Context {csv : Type}.
Implicit Types (st : state csv).

Lemma each_subreddit_spec (names : list string) (all_posts_data : list dict) st :
  ∃ evs,
    each_subreddit names all_posts_data st
    = (Return (all_posts_data
               ++ concat (map (λ name, match reddit st with
                                       | Some r => subreddit_posts r name 1000
                                       | None => []
                                       end) names)),
       logged evs st).
Proof.
  revert all_posts_data st.
  induction names as [|name rest IH]; intros all_posts_data st.
  - exists []. cbn [each_subreddit map concat]. unfold ret.
    by rewrite app_nil_r, logged_nil.
  - cbn [each_subreddit map concat]. unfold bind at 1, try_except, bind at 1.
    destruct (search_subreddit_spec name 1000 st) as [evs ->].
    unfold ret.
    destruct (IH (all_posts_data ++ match reddit st with
                                    | Some r => subreddit_posts r name 1000
                                    | None => []
                                    end) (logged evs st)) as [evs' ->].
    exists (evs ++ evs'). by rewrite logged_logged, <- app_assoc.
Qed.

(** C9 (as amended): [safe_api_call] makes at most [max_retries] attempts,
    each after the per-request delay, and returns the result of the first
    one that succeeds.  After a failed attempt it waits
    (attempt + 1) times the base retry delay when the failure is a
    rate-limit API error, the base retry delay when it is a client or an
    unexpected error, and not at all when it is another API error.  When
    every attempt fails, the last exception is raised to the caller; the
    keyword loop catches it, logs a warning and goes on with the remaining
    keywords, and the remaining subreddits are searched as well. *)
Theorem retries_and_containment :
  (∀ (A : Type) (func : nat → outcome A) (e : nat → exn) st,
     (∀ i, (i < max_retries CONFIG)%nat → func i = Raised (e i)) →
     safe_api_call func st
     = (Raised (e (max_retries CONFIG - 1)%nat),
        logged (concat (map (λ i, Sleep (request_delay CONFIG) :: failure_events i (e i))
                            (seq 0 (max_retries CONFIG)))
                ++ [Log ERROR]) st))
  ∧ (∀ (A : Type) (func : nat → outcome A) (e : nat → exn) (k : nat) (result : A) st,
       (k < max_retries CONFIG)%nat →
       (∀ i, (i < k)%nat → func i = Raised (e i)) →
       func k = Return result →
       (safe_api_call func st).1 = Return result)
  ∧ (∀ attempt msg,
       sleeps_of (failure_events attempt (RedditAPIException msg))
       = if is_rate_limit msg
         then [retry_delay CONFIG * (Z.of_nat attempt + 1)] else [])
  ∧ (∀ attempt e, (∀ msg, e ≠ RedditAPIException msg) →
       sleeps_of (failure_events attempt e) = [retry_delay CONFIG])
  ∧ (∀ sr limit keyword rest all_posts posts_data st (e : nat → exn),
       (∀ i, (i < max_retries CONFIG)%nat → search sr keyword limit i = Raised (e i)) →
       ∃ evs,
         last evs = Some (Log WARNING)
         ∧ each_keyword sr limit (keyword :: rest) all_posts posts_data st
           = each_keyword sr limit rest all_posts posts_data (logged evs st))
  ∧ (∀ sr limit kws all_posts posts_data st,
       ∃ all_posts' evs,
         each_keyword sr limit kws all_posts posts_data st
         = (Return (all_posts', posts_data ++ concat (map (keyword_posts sr limit) kws)),
            logged evs st))
  ∧ (∀ names all_posts_data st r,
       reddit st = Some r →
       ∃ evs,
         each_subreddit names all_posts_data st
         = (Return (all_posts_data
                    ++ concat (map (λ name, subreddit_posts r name 1000) names)),
            logged evs st)).
Proof.
  split; [|split; [|split; [|split; [|split; [|split]]]]].
  - intros A func e st Hfail. unfold safe_api_call. rewrite attempts_spec.
    destruct (api_all_fail func e (max_retries CONFIG) 0 None) as [-> ->]; [|done].
    intros i Hi. apply Hfail. lia.
  - intros A func e k result st Hk Hfail Hok. unfold safe_api_call.
    rewrite attempts_spec. cbn [fst].
    apply (api_result_success func e k); [|done|done].
    intros i Hi. apply Hfail. lia.
  - intros attempt msg. cbn [failure_events]. by destruct (is_rate_limit msg).
  - intros attempt e He. destruct e as [msg|msg|k| |msg]; try done. by destruct (He msg).
  - intros sr limit keyword rest all_posts posts_data st e Hfail.
    destruct (each_keyword_step sr limit keyword rest all_posts posts_data st)
      as (ap & evs & Hstep & Hraised).
    destruct (api_all_fail (search sr keyword limit) e (max_retries CONFIG) 0 None)
      as [Hres _]; [intros i Hi; apply Hfail; lia|].
    destruct (Hraised _ Hres) as [-> ->].
    eexists. split; [|rewrite Hstep; unfold keyword_posts; rewrite Hres, app_nil_r; done].
    by rewrite app_assoc, last_snoc.
  - intros. apply each_keyword_spec.
  - intros names all_posts_data st r Hr.
    destruct (each_subreddit_spec names all_posts_data st) as [evs ->].
    exists evs. by rewrite Hr.
Qed.

End containment.

(** Three client errors in a row: the wait after each failed attempt is the
    base retry delay, and the last error is raised. *)
Lemma retries_and_containment_witness :
  safe_api_call always_timeout (initial ∅)
  = (Raised (ClientException "timeout"),
     logged [Sleep 1; Log WARNING; Sleep 5; Sleep 1; Log WARNING; Sleep 5;
             Sleep 1; Log WARNING; Sleep 5; Log ERROR] (initial ∅)).
Proof.
  exact (proj1 (retries_and_containment (csv := DataFrame)) _ always_timeout
           (λ _, ClientException "timeout") (initial ∅) (λ _ _, eq_refl)).
Defined.

(** C9 (as stated) fails for client errors: the second failed attempt is
    followed by a wait of the base retry delay, 5 seconds, not by the
    attempt-indexed multiple, 10 seconds; the waits do not increase. *)
Lemma client_errors_constant_backoff :
  sleeps_of (events (safe_api_call always_timeout (initial (∅ : gmap string DataFrame))).2)
  = [1; 5; 1; 5; 1; 5]
  ∧ retry_delay CONFIG * (Z.of_nat 1 + 1) = 10
  ∧ Sleep 10 ∉ events (safe_api_call always_timeout (initial (∅ : gmap string DataFrame))).2.
Proof.
  split; [vm_compute; reflexivity|]. split; [reflexivity|].
  apply (bool_decide_unpack _). vm_compute. reflexivity.
Qed.

(** ** The driver, end to end *)

(** One subreddit answers one keyword with one candidate of score 10, inside
    the date window, with the keyword in its title and no reply: the run
    writes a dataset of exactly one row, whose replies field is empty. *)
Lemma main_one_record :
  (main (Return (mock_reddit [candidate 10])) (initial ∅)).1 = Return tt
  ∧ fs (main (Return (mock_reddit [candidate 10])) (initial ∅)).2 !! output_file CONFIG
    = Some {| columns := column_order;
              rows := [row_of (record_of (candidate 10) "csgo")] |}
  ∧ dict_get (record_of (candidate 10) "csgo") "top_comments" = Some (VStr EmptyString).
Proof. repeat split; vm_compute; reflexivity. Qed.

(** The same candidate with score 3 is below the threshold: no record, no
    file, no error. *)
Lemma main_below_threshold :
  (main (Return (mock_reddit [candidate 3])) (initial ∅)).1 = Return tt
  ∧ fs (main (Return (mock_reddit [candidate 3])) (initial ∅)).2 = ∅.
Proof. repeat split; vm_compute; reflexivity. Qed.

(** A second run over the same service leaves the dataset as it is. *)
Lemma main_twice :
  fs (main (Return (mock_reddit [candidate 10]))
        (main (Return (mock_reddit [candidate 10])) (initial ∅)).2).2
  = fs (main (Return (mock_reddit [candidate 10])) (initial ∅)).2.
Proof. vm_compute. reflexivity. Qed.

(** ** The transport: waits and the retry cap *)

Lemma sleeps_of_app (evs evs' : list event) :
  sleeps_of (evs ++ evs') = sleeps_of evs ++ sleeps_of evs'.
Proof. unfold sleeps_of. apply omap_app. Qed.

Lemma total_sleep_app (evs evs' : list event) :
  total_sleep (evs ++ evs') = total_sleep evs + total_sleep evs'.
Proof.
  unfold total_sleep. rewrite sleeps_of_app.
  induction (sleeps_of evs) as [|s l IH]; simpl; [done|]. rewrite IH. lia.
Qed.

Lemma failure_events_wait (attempt : nat) (e : exn) :
  0 ≤ total_sleep (failure_events attempt e)
    ≤ retry_delay CONFIG * (Z.of_nat attempt + 1).
Proof.
  change (retry_delay CONFIG) with 5.
  destruct e as [msg|msg|k| |msg]; cbn [failure_events];
    try destruct (is_rate_limit msg); change (retry_delay CONFIG) with 5;
    unfold total_sleep; simpl; lia.
Qed.

Lemma api_events_wait {A} (func : nat → outcome A) (remaining attempt : nat) :
  0 ≤ total_sleep (api_events func remaining attempt) ≤ worst_wait remaining attempt.
Proof.
  revert attempt. induction remaining as [|k IH]; intros attempt.
  - unfold total_sleep. simpl. lia.
  - cbn [api_events worst_wait].
    change (Sleep (request_delay CONFIG) :: ?l) with ([Sleep (request_delay CONFIG)] ++ l).
    rewrite total_sleep_app.
    change (total_sleep [Sleep (request_delay CONFIG)]) with 1.
    change (request_delay CONFIG) with 1.
    pose proof (failure_events_wait attempt) as Hf. specialize (IH (S attempt)).
    destruct (func attempt) as [r|e].
    + change (total_sleep []) with 0.
      assert (0 ≤ retry_delay CONFIG * (Z.of_nat attempt + 1))
        by (change (retry_delay CONFIG) with 5; lia).
      lia.
    + rewrite total_sleep_app. specialize (Hf e). lia.
Qed.

Lemma api_events_success {A} (func : nat → outcome A) (e : nat → exn)
    (k remaining attempt : nat) (result : A) :
  (∀ i, (attempt ≤ i < attempt + k)%nat → func i = Raised (e i)) →
  func (attempt + k)%nat = Return result →
  (k < remaining)%nat →
  api_events func remaining attempt
  = concat (map (λ i, Sleep (request_delay CONFIG) :: failure_events i (e i))
                (seq attempt k))
    ++ [Sleep (request_delay CONFIG)].
Proof.
  revert remaining attempt.
  induction k as [|k IH]; intros remaining attempt Hfail Hok Hlt;
    (destruct remaining as [|n]; [lia|]); cbn [api_events seq map concat].
  - rewrite Nat.add_0_r in Hok. by rewrite Hok.
  - rewrite (Hfail attempt) by lia. rewrite (IH n (S attempt)); [| | |lia].
    + simpl. by rewrite <- app_assoc.
    + intros i Hi. apply Hfail. lia.
    + by replace (S attempt + k)%nat with (attempt + S k)%nat by lia.
Qed.

Lemma api_agree {A} (func func' : nat → outcome A) (remaining attempt : nat)
    (last_exception : option exn) :
  (∀ i, (attempt ≤ i < attempt + remaining)%nat → func i = func' i) →
  api_result func remaining attempt last_exception
  = api_result func' remaining attempt last_exception
  ∧ api_events func remaining attempt = api_events func' remaining attempt.
Proof.
  revert attempt last_exception.
  induction remaining as [|k IH]; intros attempt last Hsame; [done|].
  cbn [api_result api_events]. rewrite <- (Hsame attempt) by lia.
  destruct (func attempt) as [r|e]; [done|].
  destruct (IH (S attempt) (Some e)) as [-> ->]; [|done].
  intros i Hi. apply Hsame. lia.
Qed.

Section transport_more.
Context {csv : Type}.
Implicit Types (st : state csv).

(** X11: one call of [safe_api_call] sleeps at most 33 seconds in all (three
    request delays of 1 and retry waits of 5, 10 and 15), whatever the query
    does, and does nothing but sleep and log; three rate-limit errors reach
    the bound. *)
Theorem safe_api_call_total_wait :
  (∀ (A : Type) (func : nat → outcome A) st,
     ∃ evs,
       (safe_api_call func st).2 = logged evs st
       ∧ 0 ≤ total_sleep evs ≤ 33)
  ∧ (∀ st, ∃ evs,
       (safe_api_call always_rate_limited st).2 = logged evs st
       ∧ total_sleep evs = 33).
Proof.
  split.
  - intros A func st. exists (api_events func (max_retries CONFIG) 0).
    unfold safe_api_call. rewrite attempts_spec. split; [done|].
    apply (api_events_wait func (max_retries CONFIG) 0).
  - intros st. exists (api_events always_rate_limited (max_retries CONFIG) 0).
    unfold safe_api_call. rewrite attempts_spec. split; [done|].
    vm_compute. reflexivity.
Qed.

(** X12: when attempt number [k] is the first to succeed, [safe_api_call]
    returns its result at once: it has slept the request delay before each
    of the [k + 1] attempts, handled the [k] failures, and it neither tries
    again nor logs a final error. *)
Theorem safe_api_call_first_success {A} (func : nat → outcome A) (e : nat → exn)
    (k : nat) (result : A) st :
  (k < max_retries CONFIG)%nat →
  (∀ i, (i < k)%nat → func i = Raised (e i)) →
  func k = Return result →
  safe_api_call func st
  = (Return result,
     logged (concat (map (λ i, Sleep (request_delay CONFIG) :: failure_events i (e i))
                         (seq 0 k))
             ++ [Sleep (request_delay CONFIG)]) st).
Proof.
  intros Hk Hfail Hok. unfold safe_api_call. rewrite attempts_spec. f_equal.
  - apply (api_result_success func e k); [|done|done]. intros i Hi. apply Hfail. lia.
  - f_equal. apply (api_events_success func e k _ _ result); [|done|done].
    intros i Hi. apply Hfail. lia.
Qed.

(** X13: the retry cap.  [safe_api_call] never makes a fourth attempt: two
    queries that answer alike on their first [max_retries] attempts give the
    same result and the same events. *)
Theorem safe_api_call_retry_cap {A} (func func' : nat → outcome A) st :
  (∀ i, (i < max_retries CONFIG)%nat → func i = func' i) →
  safe_api_call func st = safe_api_call func' st.
Proof.
  intros Hsame. unfold safe_api_call. rewrite !attempts_spec.
  destruct (api_agree func func' (max_retries CONFIG) 0 None) as [-> ->]; [|done].
  intros i Hi. apply Hsame. lia.
Qed.

End transport_more.

Lemma safe_api_call_first_success_witness :
  safe_api_call (second_time_lucky [candidate 10]) (initial ∅)
  = (Return [candidate 10],
     logged [Sleep 1; Log WARNING; Sleep 5; Sleep 1] (initial ∅)).
Proof.
  assert (Hk : (1 < max_retries CONFIG)%nat) by (vm_compute; lia).
  assert (Hfail : ∀ i, (i < 1)%nat →
            second_time_lucky [candidate 10] i = Raised (ClientException "timeout")).
  { intros i Hi. destruct i; [reflexivity | lia]. }
  assert (Hok : second_time_lucky [candidate 10] 1 = Return [candidate 10]) by reflexivity.
  exact (safe_api_call_first_success (csv := DataFrame) (second_time_lucky [candidate 10])
           (λ _, ClientException "timeout") 1 [candidate 10] (initial ∅) Hk Hfail Hok).
Defined.

Lemma safe_api_call_retry_cap_witness :
  safe_api_call (λ i, if (i <? 3)%nat then always_timeout i else Return []) (initial ∅)
  = safe_api_call always_timeout (initial (∅ : gmap string DataFrame)).
Proof.
  apply safe_api_call_retry_cap. intros i Hi.
  change (max_retries CONFIG) with 3%nat in Hi.
  by rewrite (proj2 (Nat.ltb_lt i 3) Hi).
Defined.

(** ** The aggregator and the deduplicator *)

Lemma keyword_posts_first_attempt (sr : Subreddit) (limit : Z) (keyword : string)
    (results : list Submission) :
  search sr keyword limit 0%nat = Return results →
  keyword_posts sr limit keyword = omap extract_value results.
Proof.
  intros H. unfold keyword_posts. change (max_retries CONFIG) with 3%nat.
  cbn [api_result]. by rewrite H.
Qed.

Lemma keyword_posts_same (sr : Subreddit) (limit : Z) (results : list Submission)
    (kws : list string) :
  (∀ keyword, keyword ∈ kws → search sr keyword limit 0%nat = Return results) →
  concat (map (keyword_posts sr limit) kws)
  = concat (replicate (length kws) (omap extract_value results)).
Proof.
  induction kws as [|keyword rest IH]; intros Hsame; [done|].
  cbn [map length replicate concat]. f_equal.
  - apply keyword_posts_first_attempt, Hsame. left.
  - apply IH. intros kw Hkw. apply Hsame. by right.
Qed.

Lemma remove_duplicates_missing_key (posts : list dict) (seen_ids : gset value)
    (acc : list dict) :
  (∃ p, p ∈ posts ∧ post_id p = None) →
  remove_duplicates posts seen_ids acc = Raised (KeyError "post_id").
Proof.
  intros (p & Hp & Hnone). revert seen_ids acc.
  induction posts as [|q rest IH]; intros seen_ids acc; [by apply elem_of_nil in Hp|].
  cbn [remove_duplicates]. change (dict_get q "post_id") with (post_id q).
  destruct (post_id q) as [v|] eqn:Hq; [|done].
  apply elem_of_cons in Hp as [->|Hp]; [congruence|].
  case_bool_decide; by apply IH.
Qed.

Lemma unique_posts_of_first (posts : list dict) :
  Forall (λ p, is_Some (post_id p)) posts →
  unique_posts_of posts = Return (first_occurrences posts).
Proof.
  intros Hids. unfold unique_posts_of. rewrite remove_duplicates_spec by done.
  cbn [app]. f_equal.
  induction (first_occurrences posts) as [|q l IH]; [done|].
  rewrite filter_cons_True; [by rewrite IH|]. intros v _. apply not_elem_of_empty.
Qed.

Lemma filter_keeps_all {A} (P : A → Prop) `{!∀ x, Decision (P x)} (l : list A) :
  (∀ x, x ∈ l → P x) → filter P l = l.
Proof.
  induction l as [|x l IH]; intros Hall; [done|].
  rewrite filter_cons_True by (apply Hall; left). f_equal.
  apply IH. intros y Hy. apply Hall. by right.
Qed.

Lemma first_occurrences_unique (posts : list dict) :
  NoDup (post_id <$> posts) → first_occurrences posts = posts.
Proof.
  induction posts as [|p rest IH]; [done|].
  rewrite fmap_cons. intros [Hp Hrest]%NoDup_cons. cbn [first_occurrences].
  rewrite (IH Hrest). f_equal. apply filter_keeps_all.
  intros q Hq Heq. apply Hp. rewrite <- Heq. by apply list_elem_of_fmap_2.
Qed.

Section aggregator_more.
Context {csv : Type}.
Implicit Types (st : state csv).

(** X14: [search_subreddit] never raises and leaves the files and the client
    handle alone.  With a client it returns, keyword after keyword, the
    records extracted from the results of each search that succeeded; without
    one, or when the subreddit cannot be opened, it returns no record after
    logging the error, without a single query. *)
Theorem search_subreddit_never_raises (subreddit_name : string) (limit : Z) st :
  ∃ evs,
    search_subreddit subreddit_name limit st
    = (Return (match reddit st with
               | Some r => subreddit_posts r subreddit_name limit
               | None => []
               end),
       logged evs st)
    ∧ (reddit st = None → evs = [Log ERROR])
    ∧ (∀ r e, reddit st = Some r → subreddit r subreddit_name = Raised e →
         subreddit_posts r subreddit_name limit = [] ∧ evs = [Log INFO; Log ERROR]).
Proof.
  destruct (reddit st) as [r|] eqn:Hr.
  - destruct (subreddit r subreddit_name) as [sr|e] eqn:Hsr.
    + destruct (search_subreddit_spec subreddit_name limit st) as [evs Hrun].
      rewrite Hr in Hrun. exists evs. split; [done|]. split; [done|].
      intros r' e [= <-]. congruence.
    + exists [Log INFO; Log ERROR]. split; [|split; [done|]].
      * unfold search_subreddit, bind at 1, get_reddit. rewrite Hr.
        unfold try_except, bind at 1, logger at 1, emit, bind at 1, lift, subreddit_posts.
        rewrite Hsr. unfold bind, logger, emit, ret, logged. cbn [events reddit fs].
        by rewrite <- !app_assoc.
      * intros r' e' [= <-] _. unfold subreddit_posts. by rewrite Hsr.
  - exists [Log ERROR]. split; [|split; [done|by intros r e [=]]].
    unfold search_subreddit, bind at 1, get_reddit. by rewrite Hr.
Qed.

(** X15: the set of identities seen does not stop a second extraction: when
    the search of every keyword returns the same results, each qualifying
    result is in the list of the subreddit once per keyword, whatever the
    set holds. *)
Theorem overlapping_keywords_extract_again (sr : Subreddit) (limit : Z)
    (results : list Submission) (all_posts : gset string) (posts_data : list dict) st :
  (∀ keyword, keyword ∈ keywords CONFIG → search sr keyword limit 0%nat = Return results) →
  ∃ all_posts' evs,
    each_keyword sr limit (keywords CONFIG) all_posts posts_data st
    = (Return (all_posts',
               posts_data
               ++ concat (replicate (length (keywords CONFIG)) (omap extract_value results))),
       logged evs st).
Proof.
  intros Hsame.
  destruct (each_keyword_spec sr limit (keywords CONFIG) all_posts posts_data st)
    as (ap & evs & ->).
  exists ap, evs. by rewrite (keyword_posts_same sr limit results).
Qed.

End aggregator_more.

(** X16: the deduplication of [main] raises, a KeyError, exactly when some
    record has no [post_id]; otherwise it returns the first occurrences. *)
Theorem unique_posts_of_missing_key (all_posts_data : list dict) :
  (unique_posts_of all_posts_data = Raised (KeyError "post_id")
   ↔ ∃ p, p ∈ all_posts_data ∧ post_id p = None)
  ∧ (∀ e, unique_posts_of all_posts_data = Raised e → e = KeyError "post_id")
  ∧ (∀ unique_posts, unique_posts_of all_posts_data = Return unique_posts →
       unique_posts = first_occurrences all_posts_data).
Proof.
  destruct (decide (Forall (λ p, is_Some (post_id p)) all_posts_data)) as [Hids|Hmiss].
  - rewrite unique_posts_of_first by done. split; [|split].
    + split; [done|]. intros (p & Hp & Hnone).
      destruct (proj1 (Forall_forall _ _) Hids p Hp) as [v Hv]. congruence.
    + by intros e [=].
    + by intros u [= <-].
  - apply not_Forall_Exists in Hmiss; [|apply _].
    apply Exists_exists in Hmiss as (q & Hq & Hnone%eq_None_not_Some).
    unfold unique_posts_of.
    rewrite remove_duplicates_missing_key by (by exists q). split; [|split].
    + split; [by exists q | done].
    + by intros e [= <-].
    + by intros u [=].
Qed.

(** X17: deduplicating twice changes nothing more, and a list whose records
    already have pairwise different identities is returned as it is. *)
Theorem unique_posts_of_idempotent (all_posts_data unique_posts : list dict) :
  unique_posts_of all_posts_data = Return unique_posts →
  unique_posts_of unique_posts = Return unique_posts
  ∧ (NoDup (post_id <$> all_posts_data) → unique_posts = all_posts_data).
Proof.
  intros Hrun.
  destruct (decide (Forall (λ p, is_Some (post_id p)) all_posts_data)) as [Hids|Hmiss].
  - rewrite unique_posts_of_first in Hrun by done. injection Hrun as <-. split.
    + rewrite unique_posts_of_first.
      * f_equal. apply first_occurrences_unique, first_occurrences_NoDup.
      * apply Forall_forall. intros p Hp. apply (proj1 (Forall_forall _ _) Hids).
        eapply elem_of_sublist; [exact Hp | apply first_occurrences_sublist].
    + apply first_occurrences_unique.
  - apply not_Forall_Exists in Hmiss; [|apply _].
    apply Exists_exists in Hmiss as (q & Hq & Hnone%eq_None_not_Some).
    unfold unique_posts_of in Hrun.
    rewrite remove_duplicates_missing_key in Hrun by (by exists q). done.
Qed.

Lemma overlapping_keywords_extract_again_witness :
  ∃ all_posts' evs,
    each_keyword (echo_subreddit [candidate 10]) 1000 (keywords CONFIG) ∅ [] (initial ∅)
    = (Return (all_posts', replicate 9 (record_of (candidate 10) "csgo")),
       logged evs (initial (∅ : gmap string DataFrame))).
Proof.
  assert (Hsame : ∀ keyword, keyword ∈ keywords CONFIG →
            search (echo_subreddit [candidate 10]) keyword 1000 0%nat
            = Return [candidate 10]) by reflexivity.
  destruct (overlapping_keywords_extract_again (echo_subreddit [candidate 10]) 1000
              [candidate 10] ∅ [] (initial (∅ : gmap string DataFrame)) Hsame)
    as (ap & evs & Hrun).
  exists ap, evs. exact Hrun.
Defined.

Lemma unique_posts_of_idempotent_witness :
  unique_posts_of [post_with_id "a" "1"; post_with_id "b" "2"; post_with_id "c" "4"]
  = Return [post_with_id "a" "1"; post_with_id "b" "2"; post_with_id "c" "4"].
Proof.
  assert (Hrun : unique_posts_of abacb
                 = Return [post_with_id "a" "1"; post_with_id "b" "2"; post_with_id "c" "4"])
    by (vm_compute; reflexivity).
  exact (proj1 (unique_posts_of_idempotent abacb _ Hrun)).
Defined.

(** ** The persister: errors, frame and invariants *)

Lemma new_posts_of_missing_key (posts : list dict) (ids : gset string) :
  (∃ p, p ∈ posts ∧ post_id p = None) →
  new_posts_of posts ids = Raised (KeyError "post_id").
Proof.
  intros (p & Hp & Hnone). induction posts as [|q rest IH]; [by apply elem_of_nil in Hp|].
  cbn [new_posts_of]. change (dict_get q "post_id") with (post_id q).
  destruct (post_id q) as [v|] eqn:Hq; [|done].
  apply elem_of_cons in Hp as [->|Hp]; [congruence|]. by rewrite (IH Hp).
Qed.

Lemma created_frame_dataset (posts : list dict) : dataset (created_frame posts).
Proof.
  split; [done|]. rewrite created_frame_rows. apply Forall_forall.
  intros r (d & -> & _)%list_elem_of_fmap. by rewrite length_map.
Qed.

(** The identity, as a string, of the row of a record under the fixed
    schema. *)
Lemma row_of_identity (post : dict) (v : value) :
  post_id post = Some v →
  pd.astype_str (pd.cell_at column_order (row_of post) "post_id") = str v.
Proof.
  intros Hv. unfold row_of. rewrite (cell_at_map (dict_get post)) by (by left).
  change (dict_get post "post_id") with (post_id post). by rewrite Hv.
Qed.

Section persister_more.
Context {csv : Type} `{!PandasCsv csv}.
Implicit Types (st : state csv) (posts : list dict) (filename : option string).

Lemma save_to_csv_read_error (p : dict) posts filename st (content : csv) (e : exn) :
  fs st !! default (output_file CONFIG) filename = Some content →
  read_csv content = Raised e →
  save_to_csv (p :: posts) filename st = (Raised e, logged [Log ERROR] st).
Proof.
  intros Hfile Hread. unfold save_to_csv, try_except, bind. cbv zeta.
  unfold lift at 1. rewrite select_ensured.
  unfold path_exists. rewrite Hfile.
  rewrite bool_decide_eq_true_2 by (by eexists).
  unfold pd_read_csv. rewrite Hfile, Hread. reflexivity.
Qed.

Lemma save_to_csv_column_error (p : dict) posts filename st
    (content : csv) (existing : DataFrame) (e : exn) :
  fs st !! default (output_file CONFIG) filename = Some content →
  read_csv content = Return existing →
  pd.column_as_str existing "post_id" = Raised e →
  save_to_csv (p :: posts) filename st = (Raised e, logged [Log ERROR] st).
Proof.
  intros Hfile Hread Hcol. unfold save_to_csv, try_except, bind. cbv zeta.
  unfold lift at 1. rewrite select_ensured.
  unfold path_exists. rewrite Hfile.
  rewrite bool_decide_eq_true_2 by (by eexists).
  unfold pd_read_csv. rewrite Hfile, Hread.
  unfold lift at 1. rewrite Hcol. reflexivity.
Qed.

(** Every way a call of [save_to_csv] with records can end. *)
Lemma save_to_csv_cases (p : dict) posts filename st :
  save_to_csv (p :: posts) filename st
  = match fs st !! default (output_file CONFIG) filename with
    | None =>
        (Return tt,
         written (default (output_file CONFIG) filename)
           (to_csv (created_frame (p :: posts))) [Log INFO; Log INFO] st)
    | Some content =>
        match read_csv content with
        | Raised e => (Raised e, logged [Log ERROR] st)
        | Return existing =>
            match pd.column_as_str existing "post_id" with
            | Raised e => (Raised e, logged [Log ERROR] st)
            | Return ids =>
                match new_posts_of (p :: posts) (list_to_set ids) with
                | Raised e => (Raised e, logged [Log ERROR] st)
                | Return [] => (Return tt, logged [Log INFO] st)
                | Return (n :: ns) =>
                    match pd.select (pd.DataFrame_of (n :: ns)) column_order with
                    | Raised e => (Raised e, logged [Log ERROR] st)
                    | Return new_df =>
                        (Return tt,
                         written (default (output_file CONFIG) filename)
                           (to_csv (pd.concat existing new_df)) [Log INFO; Log INFO] st)
                    end
                end
            end
        end
    end.
Proof.
  destruct (fs st !! default (output_file CONFIG) filename) as [content|] eqn:Hfile.
  - destruct (read_csv content) as [existing|e] eqn:Hread.
    + destruct (pd.column_as_str existing "post_id") as [ids|e] eqn:Hcol.
      * by apply (save_to_csv_existing _ _ _ _ content existing ids).
      * by apply (save_to_csv_column_error _ _ _ _ content existing).
    + by apply (save_to_csv_read_error _ _ _ _ content).
  - by apply save_to_csv_create.
Qed.


End persister_more.

Lemma post_id_str_Some (post : dict) (v : value) :
  post_id post = Some v → post_id_str post = str v.
Proof. intros H. unfold post_id_str. by rewrite H. Qed.

(** The identities of the rows written for records that all have one. *)
Lemma existing_ids_of_rows (rs : list (list cell)) (posts : list dict) :
  Forall (λ p, is_Some (post_id p)) posts →
  existing_ids_of {| columns := column_order; rows := rs ++ map row_of posts |}
  = existing_ids_of {| columns := column_order; rows := rs |} ++ map post_id_str posts.
Proof.
  intros Hids. unfold existing_ids_of. cbn [columns rows].
  rewrite map_app, map_map. f_equal. apply map_ext_Forall.
  eapply Forall_impl; [exact Hids|]. intros p [v Hv]. cbn beta.
  by rewrite (row_of_identity p v Hv), (post_id_str_Some p v Hv).
Qed.

Lemma created_frame_ids (p : dict) (posts : list dict) :
  Forall (λ q, is_Some (post_id q)) (p :: posts) →
  existing_ids_of (created_frame (p :: posts)) = map post_id_str (p :: posts).
Proof.
  intros Hids. unfold existing_ids_of. rewrite created_frame_rows.
  change (columns (created_frame (p :: posts))) with column_order.
  rewrite map_map. apply map_ext_Forall.
  eapply Forall_impl; [exact Hids|]. intros q [v Hv]. cbn beta.
  rewrite (cell_at_map (λ c, if bool_decide (c ∈ columns (pd.DataFrame_of (p :: posts)))
                             then dict_get q c else Some (VStr EmptyString)))
    by (by left).
  rewrite bool_decide_eq_true_2.
  - change (dict_get q "post_id") with (post_id q).
    by rewrite Hv, (post_id_str_Some q v Hv).
  - apply (DataFrame_of_columns _ p); [left|].
    apply Forall_cons in Hids as [Hp _]. exact Hp.
Qed.

Section persister_invariants.
Context {csv : Type} `{!PandasCsv csv}.
Implicit Types (st : state csv) (posts : list dict) (filename : option string).

(** The whole result of a call on an existing dataset with normalized
    records. *)
Lemma save_to_csv_append (p : dict) posts filename st
    (content : csv) (existing : DataFrame) :
  Forall normalized (p :: posts) →
  fs st !! default (output_file CONFIG) filename = Some content →
  read_csv content = Return existing →
  dataset existing →
  save_to_csv (p :: posts) filename st
  = match filter (λ q, post_id_str q ∉ existing_ids_of existing) (p :: posts) with
    | [] => (Return tt, logged [Log INFO] st)
    | n :: ns =>
        (Return tt,
         written (default (output_file CONFIG) filename)
           (to_csv {| columns := column_order;
                      rows := rows existing ++ map row_of (n :: ns) |})
           [Log INFO; Log INFO] st)
    end.
Proof.
  intros Hnorm Hfile Hread Hds.
  rewrite (save_to_csv_existing _ _ _ _ content existing _ Hfile Hread
             (dataset_post_id_column _ Hds)).
  rewrite new_posts_of_spec
    by (eapply Forall_impl; [exact Hnorm | apply normalized_post_id]).
  rewrite (list_filter_iff
             (λ q, post_id_str q ∉ (list_to_set (existing_ids_of existing) : gset string))
             (λ q, post_id_str q ∉ existing_ids_of existing))
    by (intros q; by rewrite elem_of_list_to_set).
  destruct (filter (λ q, post_id_str q ∉ existing_ids_of existing) (p :: posts))
    as [|n ns] eqn:Hnew; [done|].
  assert (Hnn : Forall normalized (n :: ns)).
  { rewrite <- Hnew. apply Forall_forall. intros q [_ Hq]%list_elem_of_filter.
    by apply (proj1 (Forall_forall _ _) Hnorm). }
  rewrite select_normalized by done.
  rewrite concat_same_columns; [done | done |].
  split; [done|]. apply Forall_forall. intros r (q & -> & _)%list_elem_of_fmap.
  apply row_of_length.
Qed.

(** X4: identities stay unique.  When the rows of the existing dataset have
    pairwise different identities and so have the input records, the dataset
    [save_to_csv] leaves has pairwise different identities too, and they are
    those of the existing rows and of the input records. *)
Theorem save_to_csv_keeps_identities_unique posts filename st
    (content : csv) (existing : DataFrame) :
  posts ≠ [] →
  Forall normalized posts →
  NoDup (map post_id_str posts) →
  fs st !! default (output_file CONFIG) filename = Some content →
  read_csv content = Return existing →
  dataset existing →
  NoDup (existing_ids_of existing) →
  fs (save_to_csv posts filename st).2 !! default (output_file CONFIG) filename
  = Some content
  ∨ ∃ df,
      fs (save_to_csv posts filename st).2 !! default (output_file CONFIG) filename
      = Some (to_csv df)
      ∧ dataset df
      ∧ NoDup (existing_ids_of df)
      ∧ ∀ i, i ∈ existing_ids_of df
             ↔ i ∈ existing_ids_of existing ∨ i ∈ map post_id_str posts.
Proof.
  intros Hne Hnorm Hnd Hfile Hread Hds Hex.
  destruct posts as [|p posts]; [done|].
  rewrite (save_to_csv_append _ _ _ _ content existing Hnorm Hfile Hread Hds).
  destruct (filter (λ q, post_id_str q ∉ existing_ids_of existing) (p :: posts))
    as [|n ns] eqn:Hnew; [by left|].
  right. eexists. split; [unfold written; cbn [snd fs]; by rewrite lookup_insert_eq|].
  assert (Hin : ∀ q, q ∈ (n :: ns) ↔ (post_id_str q ∉ existing_ids_of existing) ∧ q ∈ (p :: posts))
    by (intros q; rewrite <- Hnew;
        apply (list_elem_of_filter (λ q, post_id_str q ∉ existing_ids_of existing))).
  assert (Hids : Forall (λ q, is_Some (post_id q)) (n :: ns)).
  { apply Forall_forall. intros q [_ Hq]%Hin.
    by apply normalized_post_id, (proj1 (Forall_forall _ _) Hnorm). }
  destruct Hds as [Hcols Hrows].
  assert (Hsame : existing_ids_of {| columns := column_order; rows := rows existing |}
                  = existing_ids_of existing)
    by (unfold existing_ids_of; cbn [columns rows]; by rewrite Hcols).
  split; [|split].
  - split; [done|]. cbn [rows]. apply Forall_app. split; [done|].
    apply Forall_forall. intros r (q & -> & _)%list_elem_of_fmap. apply row_of_length.
  - rewrite existing_ids_of_rows, Hsame by done. apply NoDup_app. split; [done|]. split.
    + intros i Hi (q & -> & [Hq _]%Hin)%list_elem_of_fmap. done.
    + rewrite <- Hnew. eapply sublist_NoDup; [exact Hnd|].
      apply (fmap_sublist post_id_str), sublist_filter.
  - intros i. rewrite existing_ids_of_rows, Hsame by done.
    rewrite elem_of_app.
    change (map post_id_str (n :: ns)) with (post_id_str <$> (n :: ns)).
    change (map post_id_str (p :: posts)) with (post_id_str <$> (p :: posts)).
    rewrite !list_elem_of_fmap. split.
    + intros [Hi|(q & -> & [_ Hq]%Hin)]; [by left|]. right. by exists q.
    + intros [Hi|(q & -> & Hq)]; [by left|].
      destruct (decide (post_id_str q ∈ existing_ids_of existing)) as [Hold|Hnew'];
        [by left|]. right. exists q. split; [done|]. by apply Hin.
Qed.

(** X5: a record without [post_id] cannot be appended: when the dataset file
    exists and is readable, the call raises KeyError and writes nothing. *)
Theorem save_to_csv_append_missing_key (p : dict) posts filename st
    (content : csv) (existing : DataFrame) (q : dict) :
  fs st !! default (output_file CONFIG) filename = Some content →
  read_csv content = Return existing →
  "post_id" ∈ columns existing →
  q ∈ (p :: posts) →
  post_id q = None →
  save_to_csv (p :: posts) filename st = (Raised (KeyError "post_id"), logged [Log ERROR] st).
Proof.
  intros Hfile Hread Hcol Hq Hnone.
  rewrite (save_to_csv_existing _ _ _ _ content existing
             (map (λ r, pd.astype_str (pd.cell_at (columns existing) r "post_id"))
                  (rows existing)) Hfile Hread).
  - by rewrite new_posts_of_missing_key by (by exists q).
  - unfold pd.column_as_str. by rewrite bool_decide_eq_true_2.
Qed.

(** X6: a file that cannot be used as a dataset stops the call: an error of
    [read_csv] is raised again as it is, a file without a [post_id] column
    gives a KeyError, and in both cases nothing is written. *)
Theorem save_to_csv_unusable_file (p : dict) posts filename st (content : csv) :
  fs st !! default (output_file CONFIG) filename = Some content →
  (∀ e, read_csv content = Raised e →
     save_to_csv (p :: posts) filename st = (Raised e, logged [Log ERROR] st))
  ∧ (∀ existing, read_csv content = Return existing →
       "post_id" ∉ columns existing →
       save_to_csv (p :: posts) filename st
       = (Raised (KeyError "post_id"), logged [Log ERROR] st)).
Proof.
  intros Hfile. split.
  - intros e Hread. by apply (save_to_csv_read_error _ _ _ _ content).
  - intros existing Hread Hcol.
    apply (save_to_csv_column_error _ _ _ _ content existing); [done|done|].
    unfold pd.column_as_str. by rewrite bool_decide_eq_false_2.
Qed.

(** X7: saving the same records twice, starting without a file, writes once:
    when the codec reads back the frame it wrote, the second call leaves the
    files as the first call left them, whatever the records are. *)
Theorem save_to_csv_twice posts filename st :
  fs st !! default (output_file CONFIG) filename = None →
  read_csv (to_csv (created_frame posts)) = Return (created_frame posts) →
  fs (save_to_csv posts filename (save_to_csv posts filename st).2).2
  = fs (save_to_csv posts filename st).2.
Proof.
  intros Hfile Hround. destruct posts as [|p posts]; [done|].
  rewrite (save_to_csv_create _ _ _ _ Hfile). cbn [snd].
  set (st1 := written _ _ _ st).
  assert (Hfile1 : fs st1 !! default (output_file CONFIG) filename
                   = Some (to_csv (created_frame (p :: posts))))
    by (unfold st1, written; cbn [fs]; by rewrite lookup_insert_eq).
  rewrite (save_to_csv_existing _ _ _ _ _ _ _ Hfile1 Hround
             (dataset_post_id_column _ (created_frame_dataset _))).
  destruct (decide (Forall (λ q, is_Some (post_id q)) (p :: posts))) as [Hids|Hmiss].
  - rewrite new_posts_of_present; [done|].
    intros q Hq. destruct (proj1 (Forall_forall _ _) Hids q Hq) as [v Hv].
    exists v. split; [done|].
    rewrite elem_of_list_to_set, created_frame_ids by done.
    rewrite <- (post_id_str_Some q v Hv).
    change (map post_id_str (p :: posts)) with (post_id_str <$> (p :: posts)).
    by apply list_elem_of_fmap_2.
  - apply not_Forall_Exists in Hmiss; [|apply _].
    apply Exists_exists in Hmiss as (q & Hq & Hnone).
    rewrite new_posts_of_missing_key; [done|].
    exists q. split; [done|]. by apply eq_None_not_Some.
Qed.

End persister_invariants.

Lemma save_to_csv_create_schema_witness :
  ∃ df,
    fs (save_to_csv [bare_z] None (initial ∅)).2 !! output_file CONFIG = Some df
    ∧ columns df = column_order
    ∧ ∀ r, r ∈ rows df → pd.cell_at column_order r "title" = Some (VStr EmptyString).
Proof.
  assert (Hfile : fs (initial (∅ : gmap string DataFrame)) !! default (output_file CONFIG) None
                  = None) by (vm_compute; reflexivity).
  destruct (save_to_csv_create_schema bare_z [] None (initial ∅) Hfile)
    as (df & Hdf & Hcols & _ & Hempty).
  exists df. split; [exact Hdf|]. split; [exact Hcols|].
  apply (Hempty "title").
  - right. left.
  - intros q Hq. apply list_elem_of_singleton in Hq as ->. reflexivity.
Defined.

Lemma save_to_csv_append_missing_column_witness :
  ∃ missing,
    save_to_csv [bare_z] None disk_xy
    = (Raised (KeyError missing), logged [Log ERROR] disk_xy).
Proof.
  assert (Hfile : fs disk_xy !! default (output_file CONFIG) None = Some dataset_xy)
    by (vm_compute; reflexivity).
  assert (Hread : read_csv dataset_xy = Return dataset_xy) by reflexivity.
  assert (Hids : pd.column_as_str dataset_xy "post_id" = Return ["x"; "y"])
    by (vm_compute; reflexivity).
  assert (Hnew : new_posts_of [bare_z] (list_to_set ["x"; "y"]) = Return [bare_z])
    by (vm_compute; reflexivity).
  assert (Hne : [bare_z] ≠ []) by discriminate.
  assert (Hcol : "title" ∈ column_order) by (right; left).
  assert (Hnone : ∀ q, q ∈ [bare_z] → dict_get q "title" = None).
  { intros q Hq. apply list_elem_of_singleton in Hq as ->. reflexivity. }
  exact (save_to_csv_append_missing_column bare_z [] None disk_xy dataset_xy dataset_xy
           ["x"; "y"] [bare_z] "title" Hfile Hread Hids Hnew Hne Hcol Hnone).
Defined.

Lemma save_to_csv_keeps_identities_unique_witness :
  ∃ df,
    fs (save_to_csv batch_yz None disk_xy).2 !! output_file CONFIG = Some df
    ∧ NoDup (existing_ids_of df).
Proof.
  assert (Hne : batch_yz ≠ []) by discriminate.
  assert (Hnd : NoDup (map post_id_str batch_yz))
    by (apply (bool_decide_unpack _); vm_compute; reflexivity).
  assert (Hfile : fs disk_xy !! default (output_file CONFIG) None = Some dataset_xy)
    by (vm_compute; reflexivity).
  assert (Hread : read_csv dataset_xy = Return dataset_xy) by reflexivity.
  assert (Hex : NoDup (existing_ids_of dataset_xy))
    by (apply (bool_decide_unpack _); vm_compute; reflexivity).
  destruct (save_to_csv_keeps_identities_unique batch_yz None disk_xy dataset_xy dataset_xy
              Hne batch_yz_normalized Hnd Hfile Hread dataset_xy_dataset Hex)
    as [Hsame|(df & Hdf & _ & Hnodup & _)].
  - exists dataset_xy. split; [exact Hsame | exact Hex].
  - exists df. split; [exact Hdf | exact Hnodup].
Defined.

Lemma save_to_csv_append_missing_key_witness :
  save_to_csv [no_id] None disk_xy = (Raised (KeyError "post_id"), logged [Log ERROR] disk_xy).
Proof.
  assert (Hfile : fs disk_xy !! default (output_file CONFIG) None = Some dataset_xy)
    by (vm_compute; reflexivity).
  assert (Hread : read_csv dataset_xy = Return dataset_xy) by reflexivity.
  assert (Hcol : "post_id" ∈ columns dataset_xy) by left.
  assert (Hq : no_id ∈ [no_id]) by left.
  assert (Hnone : post_id no_id = None) by reflexivity.
  exact (save_to_csv_append_missing_key no_id [] None disk_xy dataset_xy dataset_xy no_id
           Hfile Hread Hcol Hq Hnone).
Defined.

Lemma save_to_csv_unusable_file_witness :
  save_to_csv batch_yz None disk_foreign
  = (Raised (KeyError "post_id"), logged [Log ERROR] disk_foreign).
Proof.
  assert (Hfile : fs disk_foreign !! default (output_file CONFIG) None = Some foreign_frame)
    by (vm_compute; reflexivity).
  assert (Hread : read_csv foreign_frame = Return foreign_frame) by reflexivity.
  assert (Hcol : "post_id" ∉ columns foreign_frame)
    by (apply (bool_decide_unpack _); vm_compute; reflexivity).
  exact (proj2 (save_to_csv_unusable_file (post_with_id "y" "t3") [post_with_id "z" "t4"]
                  None disk_foreign foreign_frame Hfile) foreign_frame Hread Hcol).
Defined.

Lemma save_to_csv_twice_witness :
  fs (save_to_csv batch_xy None (save_to_csv batch_xy None (initial ∅)).2).2
  = fs (save_to_csv batch_xy None (initial ∅)).2.
Proof.
  assert (Hfile : fs (initial (∅ : gmap string DataFrame)) !! default (output_file CONFIG) None
                  = None) by (vm_compute; reflexivity).
  assert (Hround : read_csv (to_csv (created_frame batch_xy)) = Return (created_frame batch_xy))
    by reflexivity.
  exact (save_to_csv_twice batch_xy None (initial ∅) Hfile Hround).
Defined.

(** ** The extractor: what a returned record holds *)

Lemma slice_to_prefix (n : nat) (s : string) :
  ∃ rest, s = slice_to n s +:+ rest.
Proof.
  unfold slice_to. revert s. induction n as [|n IH]; intros [|c s]; simpl.
  - by exists EmptyString.
  - by eexists.
  - by exists EmptyString.
  - destruct (IH s) as [rest Hrest]. exists rest.
    change (String c s = String c (String.substring 0 n s +:+ rest)). by rewrite <- Hrest.
Qed.

Lemma slice_to_length_min (n : nat) (s : string) :
  String.length (slice_to n s) = (n `min` String.length s)%nat.
Proof.
  unfold slice_to. revert s. induction n as [|n IH]; intros [|c s]; simpl; try done.
  by rewrite IH.
Qed.

Lemma extract_value_Some (submission : Submission) (post : dict) :
  extract_value submission = Some post ↔
  qualifies submission
  ∧ ∃ name, sub_subreddit submission = Return name ∧ post = record_of submission name.
Proof.
  unfold extract_value. rewrite <- passes_qualifies. split.
  - destruct (passes submission); [|done].
    destruct (sub_subreddit submission) as [name|e]; [|done].
    intros [= <-]. split; [done|]. by exists name.
  - intros [-> (name & -> & ->)]. done.
Qed.

Lemma record_content (submission : Submission) (name : string) :
  dict_get (record_of submission name) "content"
  = Some (VStr (slice_to 2000 (default EmptyString (sub_selftext submission)))).
Proof.
  change (dict_get (record_of submission name) "content")
    with (Some (VStr (match sub_selftext submission with
                      | Some t => if truthy t then slice_to 2000 t else EmptyString
                      | None => EmptyString
                      end))).
  destruct (sub_selftext submission) as [[|c t]|]; reflexivity.
Qed.

Section extractor_more.
Context {csv : Type}.
Implicit Types (submission : Submission) (st : state csv).

Lemma extract_post_data_events submission st :
  ∃ evs,
    extract_post_data submission st = (Return (extract_value submission), logged evs st)
    ∧ sleeps_of evs = []
    ∧ (length evs ≤ 2)%nat.
Proof.
  unfold extract_value. destruct (passes submission) eqn:Hp.
  - apply passes_qualifies in Hp. rewrite (extract_post_data_qualifying _ _ Hp).
    destruct (sub_subreddit submission); eexists; (split; [reflexivity|]);
      destruct (replies_error submission); simpl; split; (done || lia).
  - exists []. rewrite logged_nil. split; [|split; [done | simpl; lia]].
    apply extract_post_data_disqualified. rewrite <- passes_qualifies. congruence.
Qed.

(** X8: [extract_post_data] never raises and does nothing but log: it does
    not sleep and leaves the files and the client handle alone.  It returns
    a record exactly when the three checks pass and the name of the
    subreddit can be read. *)
Theorem extract_post_data_returns submission st :
  ∃ result evs,
    extract_post_data submission st = (Return result, logged evs st)
    ∧ sleeps_of evs = []
    ∧ (length evs ≤ 2)%nat
    ∧ (is_Some result ↔
         qualifies submission ∧ ∃ name, sub_subreddit submission = Return name).
Proof.
  destruct (extract_post_data_events submission st) as (evs & Hrun & Hs & Hl).
  exists (extract_value submission), evs. split; [done|]. split; [done|]. split; [done|].
  split.
  - intros [post (Hq & name & Hname & _)%extract_value_Some]. split; [done|]. by exists name.
  - intros [Hq [name Hname]]. exists (record_of submission name).
    apply extract_value_Some. split; [done|]. by exists name.
Qed.

(** X9: a record returned by [extract_post_data] has the twelve columns of
    the schema; its identity is the identity of the submission, its upvotes
    meet the threshold, its timestamp lies in the date window, and its
    content is the body cut to its first 2000 characters. *)
Theorem extracted_record_fields submission st (post : dict) :
  (extract_post_data submission st).1 = Return (Some post) →
  normalized post
  ∧ post_id post = Some (VStr (sub_id submission))
  ∧ dict_get post "upvotes" = Some (VInt (sub_score submission))
  ∧ min_upvotes CONFIG ≤ sub_score submission
  ∧ dict_get post "timestamp" = Some (VInt (sub_created_utc submission))
  ∧ start_date CONFIG ≤ sub_created_utc submission ≤ end_date CONFIG
  ∧ ∃ content rest,
      dict_get post "content" = Some (VStr content)
      ∧ default EmptyString (sub_selftext submission) = content +:+ rest
      ∧ String.length content
        = (2000 `min` String.length (default EmptyString (sub_selftext submission)))%nat.
Proof.
  destruct (extract_post_data_events submission st) as (evs & -> & _). cbn [fst].
  intros [= Hv]. pose proof (extract_value_normalized _ _ Hv) as Hnorm.
  apply extract_value_Some in Hv as ((Hs & Hd & _) & name & _ & ->).
  split; [done|]. split; [done|]. split; [done|]. split; [done|]. split; [done|].
  split; [done|].
  destruct (slice_to_prefix 2000 (default EmptyString (sub_selftext submission)))
    as [rest Hrest].
  exists (slice_to 2000 (default EmptyString (sub_selftext submission))), rest.
  split; [apply record_content|]. split; [done|]. apply slice_to_length_min.
Qed.

(** X10: whatever happens while the replies are read, the [top_comments]
    field of a returned record is the serialization of at most five
    summaries; each comes from one of the first five replies, one that
    passes the test, and its body has at most 500 characters. *)
Theorem top_comments_bounded submission st (post : dict) :
  (extract_post_data submission st).1 = Return (Some post) →
  ∃ kept,
    dict_get post "top_comments" = Some (VStr (replies_field kept))
    ∧ (length kept ≤ 5)%nat
    ∧ ∀ s, s ∈ kept →
        (String.length (body s) ≤ 500)%nat
        ∧ ∃ comments c,
            sub_comments submission = Return comments
            ∧ Return c ∈ take 5 comments
            ∧ keeps c = true
            ∧ s = summary c.
Proof.
  destruct (extract_post_data_events submission st) as (evs & -> & _). cbn [fst].
  intros [= (_ & name & _ & ->)%extract_value_Some].
  exists (kept_replies submission). split; [done|].
  destruct (kept_replies_bounds submission) as [Hlen Hbody]. split; [done|].
  intros s Hs. split; [by apply Hbody|].
  unfold kept_replies in Hs. destruct (sub_comments submission) as [comments|e];
    [|by apply elem_of_nil in Hs].
  apply list_elem_of_fmap in Hs as (c & -> & [Hk Hc]%list_elem_of_filter).
  exists comments, c. split; [done|]. split; [|split; [by apply Is_true_true | done]].
  clear Hk. induction (take 5 comments) as [|[c'|e] rest IH]; simpl in Hc.
  - by apply elem_of_nil in Hc.
  - apply elem_of_cons in Hc as [->|Hc]; [left | right; by apply IH].
  - by apply elem_of_nil in Hc.
Qed.

End extractor_more.

Lemma extracted_record_fields_witness :
  post_id (record_of (candidate 10) "csgo") = Some (VStr "a1")
  ∧ dict_get (record_of (candidate 10) "csgo") "upvotes" = Some (VInt 10).
Proof.
  assert (Hrun : (extract_post_data (candidate 10) (initial (∅ : gmap string DataFrame))).1
                 = Return (Some (record_of (candidate 10) "csgo")))
    by (vm_compute; reflexivity).
  destruct (extracted_record_fields (candidate 10) (initial ∅) _ Hrun)
    as (_ & Hid & Hup & _).
  split; [exact Hid | exact Hup].
Defined.

Lemma top_comments_bounded_witness :
  ∃ kept,
    dict_get (record_of broken_second_reply "csgo") "top_comments"
    = Some (VStr (replies_field kept))
    ∧ (length kept ≤ 5)%nat.
Proof.
  assert (Hrun : (extract_post_data broken_second_reply
                    (initial (∅ : gmap string DataFrame))).1
                 = Return (Some (record_of broken_second_reply "csgo")))
    by (vm_compute; reflexivity).
  destruct (top_comments_bounded broken_second_reply (initial ∅) _ Hrun)
    as (kept & Hfield & Hlen & _).
  exists kept. split; [exact Hfield | exact Hlen].
Defined.

(** ** The driver *)

Lemma keyword_posts_normalized (sr : Subreddit) (limit : Z) (keyword : string) (p : dict) :
  p ∈ keyword_posts sr limit keyword → normalized p.
Proof.
  unfold keyword_posts.
  destruct (api_result _ _ _ _) as [results|e]; [|by intros ?%elem_of_nil].
  intros (s & _ & Hs)%list_elem_of_omap. by eapply extract_value_normalized.
Qed.

Lemma subreddit_posts_normalized (r : Reddit) (name : string) (limit : Z) (p : dict) :
  p ∈ subreddit_posts r name limit → normalized p.
Proof.
  unfold subreddit_posts.
  destruct (subreddit r name) as [sr|e]; [|by intros ?%elem_of_nil].
  intros (l & Hl & Hp)%list_elem_of_In%in_concat.
  apply in_map_iff in Hl as (keyword & <- & _).
  by eapply keyword_posts_normalized, list_elem_of_In.
Qed.

Lemma collected_posts_ids (r : Reddit) (names : list string) :
  Forall (λ p, is_Some (post_id p))
         (concat (map (λ name, subreddit_posts r name 1000) names)).
Proof.
  apply Forall_forall. intros p (l & Hl & Hp)%list_elem_of_In%in_concat.
  apply in_map_iff in Hl as (name & <- & _).
  by eapply normalized_post_id, subreddit_posts_normalized, list_elem_of_In.
Qed.

Section monad_steps.
Context {csv : Type}.

Lemma bind_Return {A B} (m : M csv A) (k : A → M csv B) (st st' : state csv) (a : A) :
  m st = (Return a, st') → bind m k st = k a st'.
Proof. intros H. unfold bind. by rewrite H. Qed.

Lemma bind_Raised {A B} (m : M csv A) (k : A → M csv B) (st st' : state csv) (e : exn) :
  m st = (Raised e, st') → bind m k st = (Raised e, st').
Proof. intros H. unfold bind. by rewrite H. Qed.

Lemma logger_run (lvl : level) (st : state csv) :
  logger lvl st = (Return tt, logged [Log lvl] st).
Proof. reflexivity. Qed.

End monad_steps.

Section driver_facts.
Context {csv : Type} `{!PandasCsv csv}.
Implicit Types (st : state csv).

Lemma initialize_reddit_api_spec (praw_Reddit : outcome Reddit) st :
  initialize_reddit_api praw_Reddit st
  = match praw_Reddit with
    | Raised e => (Raised e, logged [Log INFO; Log ERROR; Log ERROR] st)
    | Return r =>
        match verified r with
        | Return _ =>
            (Return r,
             {| events := events st
                          ++ [Log INFO; Log (if read_only r then INFO else WARNING); Log INFO];
                reddit := Some r; fs := fs st |})
        | Raised e =>
            (Raised e,
             {| events := events st
                          ++ [Log INFO; Log (if read_only r then INFO else WARNING);
                              Log ERROR; Log ERROR; Log ERROR];
                reddit := Some r; fs := fs st |})
        end
    end.
Proof.
  unfold initialize_reddit_api, try_except, bind, lift, set_reddit, logger, emit, ret,
    raise, logged, verified.
  destruct praw_Reddit as [r|e]; cbn [events reddit fs].
  - destruct (read_only r); cbn [events reddit fs];
      (destruct (subreddit r "GlobalOffensive") as [sr|e]; cbn [events reddit fs];
       [destruct (display_name sr) as [dn|e]; cbn [events reddit fs]|]);
      by rewrite <- ?app_assoc.
  - by rewrite <- ?app_assoc.
Qed.

Lemma check_reddit_api_status_ok (r : Reddit) (dn : string) st :
  reddit st = Some r → verified r = Return dn →
  check_reddit_api_status st = (Return true, st).
Proof.
  intros Hr Hv. unfold check_reddit_api_status, try_except, bind, get_reddit, lift, ret.
  rewrite Hr. unfold verified in Hv.
  destruct (subreddit r "GlobalOffensive") as [sr|e]; [|done]. by rewrite Hv.
Qed.

(** The result and the files of [save_to_csv] depend on the files only. *)
Lemma save_to_csv_same_files (posts : list dict) (filename : option string) st st' :
  fs st' = fs st →
  (save_to_csv posts filename st').1 = (save_to_csv posts filename st).1
  ∧ fs (save_to_csv posts filename st').2 = fs (save_to_csv posts filename st).2
  ∧ reddit (save_to_csv posts filename st').2 = reddit st'.
Proof.
  intros Hfs. destruct posts as [|p posts]; [done|].
  rewrite !save_to_csv_cases, Hfs.
  destruct (fs st !! default (output_file CONFIG) filename) as [content|].
  - destruct (read_csv content) as [existing|e]; [|done].
    destruct (pd.column_as_str existing "post_id") as [ids|e]; [|done].
    destruct (new_posts_of (p :: posts) (list_to_set ids)) as [[|n ns]|e]; [done| |done].
    destruct (pd.select (pd.DataFrame_of (n :: ns)) column_order) as [new_df|e]; [|done].
    unfold written. cbn [fst snd fs reddit]. by rewrite Hfs.
  - unfold written. cbn [fst snd fs reddit]. by rewrite Hfs.
Qed.


(** A run whose setup fails. *)
Lemma main_failed_setup (praw_Reddit : outcome Reddit) (e : exn) st :
  setup_error praw_Reddit = Some e →
  ∃ evs st',
    main praw_Reddit st = (Raised e, st')
    ∧ events st' = events st ++ evs
    ∧ sleeps_of evs = []
    ∧ fs st' = fs st.
Proof.
  intros He. unfold main, try_except, bind at 1. rewrite initialize_reddit_api_spec.
  unfold setup_error in He. destruct praw_Reddit as [r|e'].
  - destruct (verified r) as [dn|e'] eqn:Hv; [done|]. injection He as ->.
    unfold logger, bind, emit, raise. cbn [events reddit fs].
    eexists _, _. split; [reflexivity|]. cbn [events fs].
    split; [by rewrite <- app_assoc|]. split; [|done]. by destruct (read_only r).
  - injection He as ->. unfold logger, bind, emit, raise, logged. cbn [events reddit fs].
    eexists _, _. split; [reflexivity|]. cbn [events fs].
    split; [by rewrite <- app_assoc|]. done.
Qed.

(** A run whose setup succeeds: it saves the records of the run. *)
Lemma each_subreddit_with_client (r : Reddit) (names : list string)
    (all_posts_data : list dict) st :
  reddit st = Some r →
  ∃ evs,
    each_subreddit names all_posts_data st
    = (Return (all_posts_data ++ concat (map (λ name, subreddit_posts r name 1000) names)),
       logged evs st).
Proof.
  intros Hr. destruct (each_subreddit_spec names all_posts_data st) as [evs ->].
  exists evs. by rewrite Hr.
Qed.

Lemma main_after_setup (r : Reddit) st :
  setup_error (Return r) = None →
  (main (Return r) st).1 = (save_to_csv (run_posts r) None st).1
  ∧ fs (main (Return r) st).2 = fs (save_to_csv (run_posts r) None st).2
  ∧ reddit (main (Return r) st).2 = Some r.
Proof.
  intros He. unfold setup_error in He.
  destruct (verified r) as [dn|e] eqn:Hv; [clear He|done].
  unfold run_posts. remember (main (Return r) st) as res eqn:Hres.
  unfold main in Hres. remember (subreddits CONFIG) as names eqn:Hnames.
  clear Hnames.
  pose proof (initialize_reddit_api_spec (Return r) st) as Hinit.
  cbv beta iota in Hinit. rewrite Hv in Hinit.
  unfold try_except in Hres.
  rewrite (bind_Return _ _ _ _ _ Hinit) in Hres. cbv beta in Hres.
  match type of Hinit with
  | _ = (_, ?s) => set (st1 := s) in Hinit, Hres
  end.
  assert (Hr1 : reddit st1 = Some r) by reflexivity.
  assert (Hf1 : fs st1 = fs st) by reflexivity.
  clearbody st1. clear Hinit.
  rewrite (bind_Return _ _ _ _ _ (check_reddit_api_status_ok r dn st1 Hr1 Hv)) in Hres.
  cbv beta in Hres. cbn [negb] in Hres.
  do 5 (rewrite (bind_Return _ _ _ _ _ (logger_run INFO _)) in Hres; cbv beta in Hres).
  match type of Hres with
  | context [bind (each_subreddit names []) _ ?s] => set (st2 := s) in Hres
  end.
  assert (Hr2 : reddit st2 = Some r) by exact Hr1.
  assert (Hf2 : fs st2 = fs st) by exact Hf1.
  clearbody st2.
  destruct (each_subreddit_with_client r names [] st2 Hr2) as [evs Hall].
  rewrite (bind_Return _ _ _ _ _ Hall) in Hres. cbv beta in Hres. cbn [app] in Hres.
  assert (Huniq : lift (unique_posts_of
                          (concat (map (λ name, subreddit_posts r name 1000) names)))
                    (logged evs st2)
                  = (Return (first_occurrences
                               (concat (map (λ name, subreddit_posts r name 1000) names))),
                     logged evs st2)).
  { unfold lift. by rewrite unique_posts_of_first by apply collected_posts_ids. }
  rewrite (bind_Return _ _ _ _ _ Huniq) in Hres. cbv beta in Hres.
  rewrite (bind_Return _ _ _ _ _ (logger_run INFO _)) in Hres. cbv beta in Hres.
  match type of Hres with
  | context [logged [Log INFO] ?s] => set (st3 := logged [Log INFO] s) in Hres
  end.
  assert (Hr3 : reddit st3 = Some r) by exact Hr2.
  assert (Hf3 : fs st3 = fs st) by exact Hf2.
  clearbody st3.
  destruct (first_occurrences (concat (map (λ name, subreddit_posts r name 1000) names)))
    as [|p posts].
  - rewrite logger_run in Hres. subst res. by repeat split.
  - destruct (save_to_csv_same_files (p :: posts) None st st3 Hf3) as (Hv1 & Hv2 & Hv3).
    destruct (save_to_csv (p :: posts) None st3) as [[[]|e] st4] eqn:Hsave.
    + rewrite (bind_Return _ _ _ _ _ Hsave), logger_run in Hres. subst res.
      cbn [fst snd] in *. by rewrite <- Hv1, <- Hv2, <- Hr3, <- Hv3.
    + rewrite (bind_Raised _ _ _ _ _ Hsave) in Hres. cbv beta in Hres.
      rewrite (bind_Return _ _ _ _ _ (logger_run ERROR _)) in Hres. subst res.
      cbn [fst snd] in *. by rewrite <- Hv1, <- Hv2, <- Hr3, <- Hv3.
Qed.

(** X18: when the setup fails, because the client cannot be built or cannot
    be verified, [main] raises that exception before any query: it has not
    slept and it has written nothing. *)
Theorem main_setup_failure (praw_Reddit : outcome Reddit) (e : exn) st :
  setup_error praw_Reddit = Some e →
  (main praw_Reddit st).1 = Raised e
  ∧ fs (main praw_Reddit st).2 = fs st
  ∧ sleeps_of (events (main praw_Reddit st).2) = sleeps_of (events st).
Proof.
  intros He. destruct (main_failed_setup praw_Reddit e st He)
    as (evs & st' & -> & Hev & Hsl & Hfs).
  cbn [fst snd]. split; [done|]. split; [done|].
  by rewrite Hev, sleeps_of_app, Hsl, app_nil_r.
Qed.

(** X19: when the setup succeeds, [main] saves, with [save_to_csv] on the
    configured output file, the first occurrences of the records that the
    searches of the configured subreddits give, and it ends as that call
    ends: normally, or with its exception. *)
Theorem main_saves_run_posts (r : Reddit) st :
  setup_error (Return r) = None →
  (main (Return r) st).1 = (save_to_csv (run_posts r) None st).1
  ∧ fs (main (Return r) st).2 = fs (save_to_csv (run_posts r) None st).2
  ∧ reddit (main (Return r) st).2 = Some r
  ∧ NoDup (post_id <$> run_posts r)
  ∧ Forall normalized (run_posts r).
Proof.
  intros He. destruct (main_after_setup r st He) as (H1 & H2 & H3).
  split; [done|]. split; [done|]. split; [done|]. split.
  - apply first_occurrences_NoDup.
  - apply Forall_forall. intros p Hp.
    eapply elem_of_sublist in Hp; [|apply first_occurrences_sublist].
    apply list_elem_of_In, in_concat in Hp as (l & Hl & Hp).
    apply in_map_iff in Hl as (name & <- & _).
    by eapply subreddit_posts_normalized, list_elem_of_In.
Qed.


Lemma check_reddit_api_status_spec st :
  check_reddit_api_status st
  = match reddit st with
    | None => (Return false, logged [Log ERROR] st)
    | Some r =>
        match verified r with
        | Return _ => (Return true, st)
        | Raised _ => (Return false, logged [Log ERROR] st)
        end
    end.
Proof.
  unfold check_reddit_api_status, try_except, bind, get_reddit, lift, ret, verified.
  destruct (reddit st) as [r|]; [|done].
  destruct (subreddit r "GlobalOffensive") as [sr|e]; [|done].
  by destruct (display_name sr).
Qed.

(** X21: [initialize_reddit_api] stores the client in the global handle as
    soon as the constructor has returned it, before the verification: when
    the verification fails the call raises and the handle stays set.  The
    call returns the client exactly when the verification succeeds, and it
    touches no file. *)
Theorem initialize_reddit_api_handle (praw_Reddit : outcome Reddit) st :
  (∀ e, praw_Reddit = Raised e →
     (initialize_reddit_api praw_Reddit st).1 = Raised e
     ∧ reddit (initialize_reddit_api praw_Reddit st).2 = reddit st)
  ∧ (∀ r, praw_Reddit = Return r →
       reddit (initialize_reddit_api praw_Reddit st).2 = Some r
       ∧ ((initialize_reddit_api praw_Reddit st).1 = Return r
          ↔ ∃ dn, verified r = Return dn)
       ∧ (∀ e, verified r = Raised e →
            (initialize_reddit_api praw_Reddit st).1 = Raised e))
  ∧ fs (initialize_reddit_api praw_Reddit st).2 = fs st.
Proof.
  rewrite initialize_reddit_api_spec. destruct praw_Reddit as [r|e].
  - split; [by intros e [=]|]. split.
    + intros r' [= <-]. destruct (verified r) as [dn|e] eqn:Hv; cbn [fst snd reddit].
      * split; [done|]. split; [|intros e He; congruence].
        split; [by exists dn | done].
      * split; [done|]. split; [|intros e' He; congruence].
        split; [intros He; congruence | intros [dn He]; congruence].
    + by destruct (verified r).
  - split; [by intros e' [= <-]|]. split; [by intros r [=] | done].
Qed.

(** X22: [check_reddit_api_status] never raises and touches neither the
    files nor the handle; it answers true exactly when the handle is set and
    the display name of r/GlobalOffensive can be read, and logs one error
    otherwise. *)
Theorem check_reddit_api_status_answer st :
  ∃ ok,
    check_reddit_api_status st
    = (Return ok, logged (if ok : bool then [] else [Log ERROR]) st)
    ∧ (ok = true ↔ ∃ r dn, reddit st = Some r ∧ verified r = Return dn).
Proof.
  rewrite check_reddit_api_status_spec. destruct (reddit st) as [r|] eqn:Hr.
  - destruct (verified r) as [dn|e] eqn:Hv.
    + exists true. rewrite logged_nil. split; [done|]. split; [|done]. by exists r, dn.
    + exists false. split; [done|]. split; [done|].
      intros (r' & dn & [= <-] & Hv'). congruence.
  - exists false. split; [done|]. split; [done|]. by intros (r & dn & [=] & _).
Qed.

End driver_facts.

Lemma main_setup_failure_witness :
  (main (Return unreachable_reddit) (initial (∅ : gmap string DataFrame))).1
  = Raised (OtherException "unreachable").
Proof.
  assert (He : setup_error (Return unreachable_reddit) = Some (OtherException "unreachable"))
    by reflexivity.
  exact (proj1 (main_setup_failure (Return unreachable_reddit) _
                  (initial (∅ : gmap string DataFrame)) He)).
Defined.

Lemma main_saves_run_posts_witness :
  fs (main (Return (mock_reddit [candidate 10])) (initial ∅)).2
  = fs (save_to_csv (run_posts (mock_reddit [candidate 10])) None (initial ∅)).2.
Proof.
  assert (He : setup_error (Return (mock_reddit [candidate 10])) = None) by reflexivity.
  exact (proj1 (proj2 (main_saves_run_posts (mock_reddit [candidate 10])
                         (initial (∅ : gmap string DataFrame)) He))).
Defined.
